(** * mitx-grading-library: sampling sets and the domain-validation wrapper

    A shallow embedding of [mitxgraders/helpers/specify_domain.py] and
    [graders/sampling.py], followed by the properties of the two modules.

    Conventions of the embedding:
    - a Python [int] is a [Z]; a Python [float] is idealised as a real
      number ([R]), so rounding is not part of the model;
    - a Python [str] is a [string]; a tuple or list of ints is a [list Z];
    - a function that may raise returns a [result]: [Return v] or
      [Raise e], with one exception type per [except] clause of interest;
    - the process-wide random source of numpy is an explicit state that
      every drawing function receives and returns. *)

From Stdlib Require Import ZArith List String Ascii DecimalString Bool Lia.
From Stdlib Require Import Reals Lra.
From Stdlib Require Import DecimalZ DecimalPos.
Import ListNotations.

Set Implicit Arguments.

(** ** Python-level helpers shared by the two modules *)

(** The outcome of a call that may raise an exception of type [E]. *)
Inductive result (E A : Type) : Type :=
| Return (v : A)
| Raise (e : E).
Arguments Return {E A} v.
Arguments Raise {E A} e.

(** [str(n)] and ["{}".format(n)] for a Python int. *)
Definition str_of_int (n : Z) : string :=
  NilZero.string_of_int (Z.to_int n).

(** [len(xs)] as a Python int. *)
Definition len {A : Type} (xs : list A) : Z := Z.of_nat (List.length xs).

Definition newline : ascii := "010"%char.
Definition tab : ascii := "009"%char.

(** [sep.join(lines)]. *)
Definition join (sep : string) (lines : list string) : string :=
  String.concat sep lines.

(** [s.split("\n")]: the lines of a message. *)
Fixpoint split_lines_aux (s : string) (cur : string) : list string :=
  match s with
  | EmptyString => [cur]
  | String c rest =>
      if Ascii.eqb c newline
      then cur :: split_lines_aux rest EmptyString
      else split_lines_aux rest (cur ++ String c EmptyString)
  end.

Definition split_lines (s : string) : list string :=
  split_lines_aux s EmptyString.

(** [c in s] for a character. *)
Fixpoint has_char (c : ascii) (s : string) : bool :=
  match s with
  | EmptyString => false
  | String d rest => Ascii.eqb c d || has_char c rest
  end.

(** [needle in hay] for strings. *)
Fixpoint occurs_in (needle hay : string) : bool :=
  String.prefix needle hay
  || match hay with
     | EmptyString => false
     | String _ rest => occurs_in needle rest
     end.

(** Tuple equality [t1 == t2] on tuples of ints. *)
Fixpoint tuple_eqb (t1 t2 : list Z) : bool :=
  match t1, t2 with
  | [], [] => true
  | x :: t1', y :: t2' => Z.eqb x y && tuple_eqb t1' t2'
  | _, _ => false
  end.

Definition is_None {A : Type} (o : option A) : bool :=
  match o with None => true | Some _ => false end.

(** ** specify_domain.py *)

Module SpecifyDomain.

Open Scope string_scope.

(** [numbers.Number]: the wrapper never inspects the value. *)
Definition Number : Type := R.

(** The array value type the wrapper consumes: it reads [.shape]. *)
Record MathArray : Type := mkMathArray {
  shape : list Z;
  entries : list Number
}.

(** The values a wrapped function can be called with: a number, a
    [MathArray], or an object of any other class (named by
    [obj.__class__.__name__]). *)
Inductive PyObj : Type :=
| PNum (x : Number)
| PArr (a : MathArray)
| POther (class_name : string).

(** The operations of [mitxgraders.helpers.math_array] that the
    wrapper calls and whose code is not in [specify_domain.py]: the test
    for a scalar [MathArray], [.item()] on such an array, and the
    description of shapes with three dimensions or more. The wrapper is
    studied for any implementation of them. *)
Class ArrayOps : Type := {
  is_scalar_matharray : MathArray -> bool;
  item : MathArray -> Number;
  describe_tensor : list Z -> string
}.

(** [voluptuous.Invalid], with its [error_message]. *)
Record Invalid : Type := mkInvalid { error_message : string }.

(** [DomainError(msg)], a [StudentFacingError]. *)
Inductive DomainError : Type := mkDomainError (msg : string).

Definition message (e : DomainError) : string :=
  match e with mkDomainError m => m end.

(** A voluptuous validator: returns the validated value or raises
    [Invalid]. [Schema(validator)] calls the validator and lets its
    [Invalid] through with the same [error_message], so a schema is
    modelled by the validator it wraps. *)
Definition validator : Type := PyObj -> result Invalid PyObj.

(** A Python function with its [__name__]. *)
Record PyFunction (T : Type) : Type := mkPyFunction {
  __name__ : string;
  call : list PyObj -> T
}.

(** [dict.get(key, default)] on a dict with int keys. *)
Fixpoint dict_get (d : list (Z * string)) (key : Z) (default : string) : string :=
  match d with
  | [] => default
  | (k, v) :: d' => if Z.eqb k key then v else dict_get d' key default
  end.

Definition low_ordinal (n : Z) : string :=
  let first_three := [(1%Z, "1st"); (2%Z, "2nd"); (3%Z, "3rd")] in
  dict_get first_three n (str_of_int n ++ "th").

(** Modelled from the spec: [MathArray.get_description(shape)], the
    shape descriptor of section 2 ("scalar", "vector of length N",
    "matrix of shape (rows: R, cols: C)"); beyond two dimensions the
    text is left to [describe_tensor]. *)
Definition MathArray_get_description `{ArrayOps} (shp : list Z) : string :=
  match shp with
  | [] => "scalar"
  | [n] => "vector of length " ++ str_of_int n
  | [r; c] =>
      "matrix of shape (rows: " ++ str_of_int r ++ ", cols: " ++ str_of_int c ++ ")"
  | _ => describe_tensor shp
  end.

(** Modelled from the spec: [MathArray.description], the description of
    the array's own shape. *)
Definition description `{ArrayOps} (a : MathArray) : string :=
  MathArray_get_description (shape a).

Section Wrapper.

Context `{ArrayOps}.

Definition get_description (obj : PyObj) : string :=
  match obj with
  | PNum _ => "scalar"
  | PArr a => description a
  | POther class_name => class_name
  end.

Definition number_validator : validator := fun obj =>
  match obj with
  | PNum _ => Return obj
  | PArr a =>
      if is_scalar_matharray a then Return (PNum (item a))
      else Raise (mkInvalid ("received a " ++ get_description obj ++ ", expected a scalar"))
  | POther _ =>
      Raise (mkInvalid ("received a " ++ get_description obj ++ ", expected a scalar"))
  end.

Definition make_shape_validator (shp : list Z) : validator := fun obj =>
  let invalid :=
    Raise (mkInvalid ("received a " ++ get_description obj
                      ++ ", expected a " ++ MathArray_get_description shp)) in
  match obj with
  | PArr a => if tuple_eqb (shape a) shp then Return obj else invalid
  | _ => invalid
  end.

Definition has_shape (shp : list Z) : validator :=
  if tuple_eqb shp [1%Z] then number_validator
  else make_shape_validator shp.

(** How authors specify a shape: a positive int [k] or a list of
    positive ints. *)
Inductive shape_spec : Type :=
| SpecInt (k : Z)
| SpecList (ks : list Z).

(** Modelled from the spec: [Positive(int)] accepts the ints above 0. *)
Definition Positive (x : Z) : bool := (0 <? x)%Z.

(** [SCHEMA_SHAPE]: the normalised shape tuple, or [None] when the
    schema raises. *)
Definition SCHEMA_SHAPE (s : shape_spec) : option (list Z) :=
  match s with
  | SpecInt k => if Positive k then Some [k] else None
  | SpecList ks => if forallb Positive ks then Some ks else None
  end.

Fixpoint validate_shapes (specs : list shape_spec) : option (list (list Z)) :=
  match specs with
  | [] => Some []
  | s :: specs' =>
      match SCHEMA_SHAPE s, validate_shapes specs' with
      | Some shp, Some shps => Some (shp :: shps)
      | _, _ => None
      end
  end.

(** The first loop of [_func]: every schema is run on its argument and
    the outcome appended to [errors]. *)
Fixpoint validate_loop (pairs : list (validator * PyObj))
    (errors : list (option Invalid)) : list (option Invalid) :=
  match pairs with
  | [] => errors
  | (schema, arg) :: rest =>
      match schema arg with
      | Return _ => validate_loop rest (errors ++ [None])
      | Raise error => validate_loop rest (errors ++ [Some error])
      end
  end.

(** The line of the report for one argument. *)
Definition report_line (index : Z) (shp : list Z) (error : option Invalid) : string :=
  let ordinal := low_ordinal (index + 1) in
  match error with
  | Some e => ordinal ++ " input has an error: " ++ error_message e
  | None =>
      let expected :=
        if tuple_eqb shp [1%Z] then "scalar" else MathArray_get_description shp in
      ordinal ++ " input is ok: received a " ++ expected ++ " as expected"
  end.

(** The second loop of [_func], over [enumerate(zip(shapes, errors))]. *)
Fixpoint report_loop (index : Z) (pairs : list (list Z * option Invalid))
    (lines : list string) : list string :=
  match pairs with
  | [] => lines
  | (shp, error) :: rest =>
      report_loop (index + 1) rest (lines ++ [report_line index shp error])
  end.

Definition arity_message (func_name : string) (expected received : Z) : string :=
  "There was an error evaluating function " ++ func_name
  ++ "(...): expected " ++ str_of_int expected ++ " inputs, but received "
  ++ str_of_int received ++ ".".

Definition report_header (func_name : string) : string :=
  "There was an error evaluating function " ++ func_name ++ "(...)".

Definition line_separator : string := String newline (String tab EmptyString).

Section Decorated.

Variable T : Type.

(** The wrapper [_func], called on the tuple [args]; it is closed over
    [shapes], [schemas], [func_name] and [func]. *)
Definition _func (shapes : list (list Z)) (schemas : list validator)
    (func_name : string) (func : list PyObj -> T) (args : list PyObj)
    : result DomainError T :=
  if negb (len shapes =? len args)%Z then
    Raise (mkDomainError (arity_message func_name (len shapes) (len args)))
  else
    let errors := validate_loop (combine schemas args) [] in
    if forallb is_None errors then Return (func args)
    else
      let lines := report_loop 0 (combine shapes errors) [report_header func_name] in
      Raise (mkDomainError (join line_separator lines)).

(** [display_name if display_name else func.__name__]: [None] and the
    empty string are both falsy. *)
Definition pick_name (display_name : option string) (func : PyFunction T) : string :=
  match display_name with
  | Some (String c s) => String c s
  | _ => __name__ func
  end.

Definition make_decorator (shapes : list (list Z)) (display_name : option string)
    (func : PyFunction T) : list PyObj -> result DomainError T :=
  let schemas := map has_shape shapes in
  _func shapes schemas (pick_name display_name func) (call func).

(** [SpecifyDomain(input_shapes=..., display_name=...)]: the decorator,
    or [None] when the configuration is refused. *)
Definition SpecifyDomain (input_shapes : list shape_spec)
    (display_name : option string)
    : option (PyFunction T -> list PyObj -> result DomainError T) :=
  match validate_shapes input_shapes with
  | Some shapes => Some (make_decorator shapes display_name)
  | None => None
  end.

(** The function object that [decorator(func)] returns: [_func], given
    the [__name__] of [func] and marked [validated]. It may raise
    [DomainError], so it is a function into [result DomainError T]. *)
Record DecoratedFunction : Type := mkDecorated {
  wrapper : PyFunction (result DomainError T);
  validated : bool
}.

Definition decorator (shapes : list (list Z)) (display_name : option string)
    (func : PyFunction T) : DecoratedFunction :=
  mkDecorated
    (mkPyFunction (__name__ func) (make_decorator shapes display_name func))
    true.

(** The outcome of [return func(...)] when [func] may itself raise: its
    exception goes through the caller. *)
Definition propagate {E : Type} (r : result E (result E T)) : result E T :=
  match r with
  | Return r' => r'
  | Raise e => Raise e
  end.

End Decorated.

End Wrapper.

(** The arrays of numpy: scalar when zero-dimensional. *)
#[export] Instance numpy_ops : ArrayOps := {
  is_scalar_matharray a := match shape a with [] => true | _ => false end;
  item a := hd 0%R (entries a);
  describe_tensor shp :=
    "tensor of shape (" ++ join ", " (map str_of_int shp) ++ ")"
}.

Definition vec (xs : list Number) : MathArray := mkMathArray [len xs] xs.

Definition cross : PyFunction (list PyObj) := mkPyFunction "cross" (fun args => args).

End SpecifyDomain.

(** ** sampling.py *)

Module Sampling.

Open Scope string_scope.
Open Scope R_scope.

(** The exceptions of this module: [ConfigError] of the graders, and
    numpy's and Python's own. *)
Inductive exn : Type :=
| ConfigError (msg : string)
| ValueError (msg : string)
| IndexError (msg : string).

(** numpy's random source. [random_sample] is
    [np.random.random_sample()], a float of the half-open interval
    [0, 1); [randint low high] is [np.random.randint(low, high)], an int
    of [low, high), a [ValueError] when that range is empty. Every
    draw returns the next state of the source. *)
Class RandomSource : Type := {
  rng : Type;
  random_sample : rng -> R * rng;
  randint : Z -> Z -> rng -> result exn Z * rng;
  random_sample_range :
    forall s, 0 <= fst (random_sample s) < 1;
  randint_range :
    forall low high s, (low < high)%Z ->
      exists v, fst (randint low high s) = Return v /\ (low <= v < high)%Z;
  randint_onto :
    forall low high v, (low <= v < high)%Z ->
      exists s, fst (randint low high s) = Return v
}.

(** Computations that read and advance the random source. *)
Definition sampler `{RandomSource} (A : Type) : Type := rng -> A * rng.

Definition ret `{RandomSource} {A : Type} (a : A) : sampler A :=
  fun s => (a, s).

Definition bind `{RandomSource} {A B : Type} (m : sampler A) (k : A -> sampler B)
    : sampler B :=
  fun s => let (a, s') := m s in k a s'.

Notation "x <- m ;; k" := (bind m (fun x => k))
  (at level 61, m at next level, right associativity).

(** [n] successive draws, in order. *)
Fixpoint replicate_draws `{RandomSource} {A : Type} (n : nat) (draw : sampler A)
    : sampler (list A) :=
  match n with
  | O => ret []
  | S n' => x <- draw ;; xs <- replicate_draws n' draw ;; ret (x :: xs)
  end.

(** Three-dimensional numpy arrays of floats, outermost axis first. *)
Definition tensor : Type := list (list (list R)).

(** [np.random.rand(d0, d1, d2)]: [d0 * d1 * d2] draws in row-major
    order; a negative dimension is a [ValueError]. *)
Definition np_random_rand `{RandomSource} (d0 d1 d2 : Z) : sampler (result exn tensor) :=
  if ((d0 <? 0) || (d1 <? 0) || (d2 <? 0))%Z
  then ret (Raise (ValueError "negative dimensions are not allowed"))
  else
    t <- replicate_draws (Z.to_nat d0)
           (replicate_draws (Z.to_nat d1)
              (replicate_draws (Z.to_nat d2) random_sample)) ;;
    ret (Return t).

(** Elementwise operations on arrays of one shape. *)
Definition tmap (g : R -> R) (t : tensor) : tensor :=
  map (map (map g)) t.

Fixpoint zip_with {A B C : Type} (g : A -> B -> C) (xs : list A) (ys : list B) : list C :=
  match xs, ys with
  | x :: xs', y :: ys' => g x y :: zip_with g xs' ys'
  | _, _ => []
  end.

Definition tmap2 (g : R -> R -> R) (t u : tensor) : tensor :=
  zip_with (zip_with (zip_with g)) t u.

(** [np.sum] of a one-dimensional array. *)
Definition np_sum (xs : list R) : R := fold_right Rplus 0 xs.

(** [np.tile(xvec, (d0, d1, 1))]. *)
Definition np_tile (xvec : list R) (d0 d1 : Z) : tensor :=
  repeat (repeat xvec (Z.to_nat d1)) (Z.to_nat d0).

(** Complex numbers, as (real part, imaginary part). *)
Definition complex : Type := (R * R)%type.

Definition Cmul (z w : complex) : complex :=
  (fst z * fst w - snd z * snd w, fst z * snd w + snd z * fst w).

Definition C_of_float (x : R) : complex := (x, 0).

(** The imaginary unit, [1j]. *)
Definition Cj : complex := (0, 1).

(** [np.exp] on a complex number. *)
Definition Cexp (z : complex) : complex :=
  (exp (fst z) * cos (snd z), exp (fst z) * sin (snd z)).

(** [abs(z)]. *)
Definition Cmod (z : complex) : R := sqrt (fst z * fst z + snd z * snd z).

(** [theta] is an angle of [z]: [z] is [abs(z)] turned by [theta]. *)
Definition is_angle_of (theta : R) (z : complex) : Prop :=
  z = (Cmod z * cos theta, Cmod z * sin theta).

Module RealInterval.

(** The configuration after [__init__]. *)
Record t : Type := mk { start : R; stop : R }.

Definition __init__ (a b : R) : t :=
  if Rgt_dec a b then mk b a else mk a b.

Definition gen_sample `{RandomSource} (self : t) : sampler R :=
  u <- random_sample ;; ret (start self + (stop self - start self) * u).

End RealInterval.

Module IntegerRange.

Record t : Type := mk { start : Z; stop : Z }.

Definition __init__ (a b : Z) : t :=
  if (a >? b)%Z then mk b a else mk a b.

Definition gen_sample `{RandomSource} (self : t) : sampler (result exn Z) :=
  randint (start self) (stop self + 1).

End IntegerRange.

Module ComplexSector.

Record t : Type := mk { modulus : RealInterval.t; argument : RealInterval.t }.

(** The two ranges of the configuration, each as (start, stop). *)
Definition __init__ (modulus_range argument_range : R * R) : t :=
  mk (RealInterval.__init__ (fst modulus_range) (snd modulus_range))
     (RealInterval.__init__ (fst argument_range) (snd argument_range)).

Definition gen_sample `{RandomSource} (self : t) : sampler complex :=
  m <- RealInterval.gen_sample (modulus self) ;;
  a <- RealInterval.gen_sample (argument self) ;;
  ret (Cmul (C_of_float m) (Cexp (Cmul Cj (C_of_float a)))).

End ComplexSector.

(** [z + w] on complex numbers. *)
Definition Cadd (z w : complex) : complex :=
  (fst z + fst w, snd z + snd w).

Module ComplexRectangle.

Record t : Type := mk { re : RealInterval.t; im : RealInterval.t }.

(** The two ranges of the configuration, each as (start, stop). *)
Definition __init__ (re_range im_range : R * R) : t :=
  mk (RealInterval.__init__ (fst re_range) (snd re_range))
     (RealInterval.__init__ (fst im_range) (snd im_range)).

Definition gen_sample `{RandomSource} (self : t) : sampler complex :=
  x <- RealInterval.gen_sample (re self) ;;
  y <- RealInterval.gen_sample (im self) ;;
  ret (Cadd (C_of_float x) (Cmul (C_of_float y) Cj)).

End ComplexRectangle.

Module RandomFunction.

Record config : Type := mkConfig {
  input_dim : Z;
  output_dim : Z;
  num_terms : Z;
  center : R;
  amplitude : R
}.

(** Modelled from the spec: [Positive(int)] and [Positive(Number)], the
    predicates of the schema, accept the values above 0. *)
Definition Positive_int (x : Z) : bool := (0 <? x)%Z.
Definition Positive_Number (x : R) : bool := if Rlt_dec 0 x then true else false.

(** [schema_config] applied by the constructor. *)
Definition __init__ (c : config) : result exn config :=
  if Positive_int (input_dim c) && Positive_int (output_dim c)
     && Positive_int (num_terms c) && Positive_Number (amplitude c)
  then Return c
  else Raise (ConfigError "invalid configuration").

(** What the inner function [f] closes over: [self] and the three
    arrays drawn by [gen_sample]. *)
Record closure : Type := mkClosure {
  self : config;
  A : tensor;
  B : tensor;
  C : tensor
}.

(** What [f] returns: [fullsum] or [fullsum[0]]. *)
Inductive output : Type :=
| Scalar (y : R)
| Vector (ys : list R).

Section WithSource.

Context `{RandomSource}.

(** The inner function [f], called on the tuple [args]. *)
Definition f (clo : closure) (args : list R) : sampler (result exn output) :=
  let cfg := self clo in
  if negb (len args =? input_dim cfg)%Z then
    ret (Raise (ConfigError
           ("Expected " ++ str_of_int (input_dim cfg)
            ++ " arguments, but received " ++ str_of_int (len args))))
  else
    let xvec := args in
    let xarray := np_tile xvec (output_dim cfg) (num_terms cfg) in
    let output :=
      tmap2 Rmult (A clo) (tmap sin (tmap2 Rplus (tmap2 Rmult (B clo) xarray) (C clo))) in
    let fullsum := map np_sum (map (map np_sum) output) in
    let fullsum := map (fun y => y * amplitude cfg / IZR (num_terms cfg)) fullsum in
    let fullsum := map (fun y => y + center cfg) fullsum in
    if (output_dim cfg >? 1)%Z then ret (Return (Vector fullsum))
    else
      match fullsum with
      | y :: _ => ret (Return (Scalar y))
      | [] => ret (Raise (IndexError "index 0 is out of bounds"))
      end.

Definition gen_sample (cfg : config) : sampler (result exn closure) :=
  let output_dim := output_dim cfg in
  let input_dim := input_dim cfg in
  let num_terms := num_terms cfg in
  ra <- np_random_rand output_dim num_terms input_dim ;;
  match ra with
  | Raise e => ret (Raise e)
  | Return ra =>
      let A := tmap (fun a => a / 2 + 0.5) ra in
      rb <- np_random_rand output_dim num_terms input_dim ;;
      match rb with
      | Raise e => ret (Raise e)
      | Return rb =>
          let B := tmap (fun b => 2 * PI * (b - 0.5)) rb in
          rc <- np_random_rand output_dim num_terms input_dim ;;
          match rc with
          | Raise e => ret (Raise e)
          | Return rc =>
              let C := tmap (fun c => 2 * PI * c) rc in
              ret (Return (mkClosure cfg A B C))
          end
      end
  end.

End WithSource.

End RandomFunction.

End Sampling.

(** * Notions used to state the properties *)

Module DomainSpec.

Import SpecifyDomain.
Open Scope string_scope.

(** What one schema leaves in [errors] for its argument. *)
Definition outcome (p : validator * PyObj) : option Invalid :=
  match fst p (snd p) with
  | Return _ => None
  | Raise error => Some error
  end.

(** The per-argument lines of the report, in order, from [index] on. *)
Fixpoint lines_from `{ArrayOps} (index : Z) (pairs : list (list Z * option Invalid))
    : list string :=
  match pairs with
  | [] => []
  | (shp, error) :: rest => report_line index shp error :: lines_from (index + 1) rest
  end.

(** The text the report gives for a shape that was met. *)
Definition expected_description `{ArrayOps} (shp : list Z) : string :=
  if tuple_eqb shp [1%Z] then "scalar" else MathArray_get_description shp.

(** A validator accepts an object when it returns. *)
Definition accepts (v : validator) (obj : PyObj) : Prop :=
  exists r, v obj = Return r.

(** The message of a raised [DomainError], if one was raised. *)
Definition raised_message {T : Type} (r : result DomainError T) : option string :=
  match r with
  | Raise e => Some (message e)
  | Return _ => None
  end.

(** A function that returns the arguments it received. *)
Definition echo : PyFunction (list PyObj) :=
  mkPyFunction "echo" (fun args => args).

(** [MathArray(5)], a zero-dimensional array. *)
Definition scalar5 : MathArray := mkMathArray [] [5%R].

(** Objects that are arrays of shape (1,). *)
Definition length1_array (obj : PyObj) : Prop :=
  exists a, obj = PArr a /\ shape a = [1%Z].

(** What the wrapper raises before it calls the function, if anything:
    the wrapper run on a function that does nothing. *)
Definition domain_check `{ArrayOps} (shapes : list (list Z)) (func_name : string)
    (args : list PyObj) : option DomainError :=
  match _func shapes (map has_shape shapes) func_name (fun _ : list PyObj => tt) args with
  | Raise e => Some e
  | Return _ => None
  end.

End DomainSpec.

Module SamplingSpec.

Import Sampling.
Open Scope string_scope.
Open Scope R_scope.

(** A deterministic random source, for running the samplers: the state
    is a counter, a float draw is its last three digits as thousandths,
    an int draw is the counter reduced into the range asked for. *)
Definition counter_random_sample (s : Z) : R * Z :=
  (IZR (s mod 1000) / 1000, (s + 1)%Z).

Definition counter_randint (low high : Z) (s : Z) : result exn Z * Z :=
  (if (low <? high)%Z then Return (low + s mod (high - low))%Z
   else Raise (ValueError "low >= high"),
   (s + 1)%Z).

#[export, refine] Instance counter_source : RandomSource := {
  rng := Z;
  random_sample := counter_random_sample;
  randint := counter_randint
}.
Proof.
  - intros s. simpl. pose proof (Z.mod_pos_bound s 1000 eq_refl) as [L U].
    apply IZR_le in L. apply IZR_lt in U. lra.
  - intros low high s L. unfold counter_randint; simpl.
    rewrite (proj2 (Z.ltb_lt low high) L).
    exists (low + s mod (high - low))%Z. split; [reflexivity |].
    pose proof (Z.mod_pos_bound s (high - low)). lia.
  - intros low high v B. exists (v - low)%Z. unfold counter_randint; simpl.
    rewrite (proj2 (Z.ltb_lt low high)) by lia.
    rewrite Z.mod_small by lia. f_equal. lia.
Defined.

(** Entry (i, j, k) of a three-dimensional array. *)
Definition nth3 (t : tensor) (i j k : nat) : R :=
  nth k (nth j (nth i t []) []) 0.

(** The array of dimensions (d0, d1, d2) whose entry (i, j, k) is
    [g i j k]. *)
Definition tabulate3 (d0 d1 d2 : nat) (g : nat -> nat -> nat -> R) : tensor :=
  map (fun i => map (fun j => map (fun k => g i j k) (seq 0 d2)) (seq 0 d1)) (seq 0 d0).

(** [t.shape == (d0, d1, d2)]. *)
Definition has_dims (t : tensor) (d0 d1 d2 : nat) : Prop :=
  List.length t = d0
  /\ Forall (fun m => List.length m = d1 /\ Forall (fun r => List.length r = d2) m) t.

(** The sum of [g 0], ..., [g (n - 1)]. *)
Fixpoint sum_upto (n : nat) (g : nat -> R) : R :=
  match n with
  | O => 0
  | S n' => sum_upto n' g + g n'
  end.

(** Component [i] of the random function as the specification gives it:
    center + (amplitude / num_terms) times the sum over j and k of
    A[i,j,k] * sin(B[i,j,k] * x_k + C[i,j,k]). *)
Definition component (clo : RandomFunction.closure) (x : list R) (i : nat) : R :=
  let cfg := RandomFunction.self clo in
  RandomFunction.center cfg
  + RandomFunction.amplitude cfg / IZR (RandomFunction.num_terms cfg)
    * sum_upto (Z.to_nat (RandomFunction.num_terms cfg)) (fun j =>
        sum_upto (Z.to_nat (RandomFunction.input_dim cfg)) (fun k =>
          nth3 (RandomFunction.A clo) i j k
          * sin (nth3 (RandomFunction.B clo) i j k * nth k x 0
                 + nth3 (RandomFunction.C clo) i j k))).

(** The configuration that [RandomFunction()] gets from the defaults of
    its schema. *)
Definition default_config : RandomFunction.config :=
  RandomFunction.mkConfig 1 1 3 0 10.

(** The random source after [n] float draws. *)
Definition advance `{RandomSource} (n : nat) (s : rng) : rng :=
  Nat.iter n (fun s0 => snd (random_sample s0)) s.

(** Every entry of a three-dimensional array satisfies [P]. *)
Definition all_entries (P : R -> Prop) (t : tensor) : Prop :=
  Forall (Forall (Forall P)) t.

(** The numbers in what the random function returns. *)
Definition values_of (out : RandomFunction.output) : list R :=
  match out with
  | RandomFunction.Scalar y => [y]
  | RandomFunction.Vector ys => ys
  end.

(** The closure that [gen_sample] draws for the default configuration
    from the counter source in state 0. *)
Definition default_closure : RandomFunction.closure :=
  RandomFunction.mkClosure default_config
    [[[IZR 0 / 1000 / 2 + 0.5]; [IZR 1 / 1000 / 2 + 0.5]; [IZR 2 / 1000 / 2 + 0.5]]]
    [[[2 * PI * (IZR 3 / 1000 - 0.5)]; [2 * PI * (IZR 4 / 1000 - 0.5)];
      [2 * PI * (IZR 5 / 1000 - 0.5)]]]
    [[[2 * PI * (IZR 6 / 1000)]; [2 * PI * (IZR 7 / 1000)];
      [2 * PI * (IZR 8 / 1000)]]].

End SamplingSpec.

(** * Properties of the domain-validation wrapper *)

Module DomainProps.

Import SpecifyDomain DomainSpec.
Open Scope string_scope.

Lemma tuple_eqb_eq (t1 t2 : list Z) : tuple_eqb t1 t2 = true <-> t1 = t2.
Proof.
  revert t2; induction t1 as [| x t1 IH]; intros [| y t2]; simpl;
    try (split; [discriminate | discriminate]); try tauto.
  rewrite andb_true_iff, Z.eqb_eq, IH. split.
  - intros [-> ->]; reflexivity.
  - intros E; injection E; auto.
Qed.

Lemma tuple_eqb_neq (t1 t2 : list Z) : t1 <> t2 -> tuple_eqb t1 t2 = false.
Proof.
  intros N. destruct (tuple_eqb t1 t2) eqn:E; [| reflexivity].
  apply tuple_eqb_eq in E. contradiction.
Qed.

Lemma has_char_app (c : ascii) (s1 s2 : string) :
  has_char c (s1 ++ s2) = has_char c s1 || has_char c s2.
Proof.
  induction s1 as [| d s1 IH]; simpl; [reflexivity |].
  rewrite IH, orb_assoc. reflexivity.
Qed.

Lemma uint_no_newline (d : Decimal.uint) :
  has_char newline (NilEmpty.string_of_uint d) = false.
Proof. induction d; simpl; auto. Qed.

Lemma str_of_int_no_newline (n : Z) : has_char newline (str_of_int n) = false.
Proof.
  unfold str_of_int, NilZero.string_of_int, NilZero.string_of_uint.
  destruct (Z.to_int n) as [d | d]; destruct d; simpl;
    auto using uint_no_newline.
Qed.

Lemma len_eqb_length {X Y : Type} (xs : list X) (ys : list Y) :
  (len xs =? len ys)%Z = Nat.eqb (List.length xs) (List.length ys).
Proof.
  unfold len. destruct (Nat.eqb_spec (List.length xs) (List.length ys)) as [E | N].
  - rewrite E. apply Z.eqb_refl.
  - apply Z.eqb_neq. lia.
Qed.

Section Facts.

Context `{ArrayOps}.

Lemma validate_loop_spec (pairs : list (validator * PyObj)) (errors : list (option Invalid)) :
  validate_loop pairs errors = (errors ++ map outcome pairs)%list.
Proof.
  revert errors; induction pairs as [| [schema arg] rest IH]; intros errors; simpl.
  - now rewrite app_nil_r.
  - unfold outcome at 1; simpl.
    destruct (schema arg); rewrite IH, <- app_assoc; reflexivity.
Qed.

Lemma report_loop_spec (pairs : list (list Z * option Invalid)) :
  forall index lines,
    report_loop index pairs lines = (lines ++ lines_from index pairs)%list.
Proof.
  induction pairs as [| [shp error] rest IH]; intros index lines; simpl.
  - now rewrite app_nil_r.
  - rewrite IH, <- app_assoc. reflexivity.
Qed.

Lemma lines_from_length (pairs : list (list Z * option Invalid)) :
  forall index, List.length (lines_from index pairs) = List.length pairs.
Proof.
  induction pairs as [| [shp error] rest IH]; intros index; simpl; auto.
Qed.

Lemma lines_from_nth (pairs : list (list Z * option Invalid)) :
  forall index i shp error,
    nth_error pairs i = Some (shp, error) ->
    nth_error (lines_from index pairs) i
    = Some (report_line (index + Z.of_nat i) shp error).
Proof.
  induction pairs as [| [shp0 error0] rest IH]; intros index [| i] shp error E;
    simpl in *; try discriminate.
  - injection E as -> ->. now rewrite Z.add_0_r.
  - rewrite (IH _ _ _ _ E). do 2 f_equal. lia.
Qed.

Lemma combine_nth_error {X Y : Type} (xs : list X) (ys : list Y) :
  forall i x y,
    nth_error xs i = Some x -> nth_error ys i = Some y ->
    nth_error (combine xs ys) i = Some (x, y).
Proof.
  revert ys; induction xs as [| x0 xs IH]; intros [| y0 ys] [| i] x y Hx Hy;
    simpl in *; try discriminate.
  - now injection Hx as ->; injection Hy as ->.
  - eauto.
Qed.

(** The content of [errors] after the first loop of the wrapper. *)
Lemma errors_nth (shapes : list (list Z)) (args : list PyObj) i shp arg :
  nth_error shapes i = Some shp -> nth_error args i = Some arg ->
  nth_error (map outcome (combine (map has_shape shapes) args)) i
  = Some (outcome (has_shape shp, arg)).
Proof.
  intros Hs Ha. apply map_nth_error, combine_nth_error; [| exact Ha].
  now apply map_nth_error.
Qed.

Lemma errors_length (shapes : list (list Z)) (args : list PyObj) :
  List.length args = List.length shapes ->
  List.length (map outcome (combine (map has_shape shapes) args)) = List.length args.
Proof.
  intros E. rewrite length_map, length_combine, length_map. lia.
Qed.

Lemma forallb_is_None_false {X : Type} (os : list (option X)) i x :
  nth_error os i = Some (Some x) -> forallb is_None os = false.
Proof.
  revert i; induction os as [| o os IH]; intros [| i] E; simpl in *;
    try discriminate.
  - injection E as ->. reflexivity.
  - rewrite (IH _ E). apply andb_false_r.
Qed.

Lemma forallb_is_None_true {X : Type} (os : list (option X)) :
  (forall o, In o os -> o = None) -> forallb is_None os = true.
Proof.
  intros A. apply forallb_forall. intros o I. now rewrite (A o I).
Qed.

Lemma string_app_nil_r (s : string) : s ++ "" = s.
Proof. induction s as [| c s IH]; simpl; [reflexivity | now rewrite IH]. Qed.

Lemma string_app_assoc (s1 s2 s3 : string) : (s1 ++ s2) ++ s3 = s1 ++ (s2 ++ s3).
Proof. induction s1 as [| c s1 IH]; simpl; [reflexivity | now rewrite IH]. Qed.

Lemma split_lines_aux_single (s cur : string) :
  has_char newline s = false -> split_lines_aux s cur = [cur ++ s].
Proof.
  revert cur; induction s as [| c s IH]; intros cur N;
    cbn [split_lines_aux has_char] in *.
  - now rewrite string_app_nil_r.
  - apply orb_false_iff in N as [Nc Ns]. rewrite Ascii.eqb_sym, Nc.
    rewrite (IH _ Ns), string_app_assoc. reflexivity.
Qed.

Lemma split_lines_single (s : string) :
  has_char newline s = false -> split_lines s = [s].
Proof. intros N. unfold split_lines. now rewrite split_lines_aux_single. Qed.

Lemma arity_message_no_newline (func_name : string) (expected received : Z) :
  has_char newline func_name = false ->
  has_char newline (arity_message func_name expected received) = false.
Proof.
  intros N. unfold arity_message.
  repeat rewrite has_char_app. rewrite N, !str_of_int_no_newline. reflexivity.
Qed.

(** With as many arguments as shapes and every schema satisfied, the
    wrapper calls [func] on [args]. *)
Lemma _func_delegates (T : Type) (shapes : list (list Z)) (func_name : string)
    (func : list PyObj -> T) (args : list PyObj) :
  List.length args = List.length shapes ->
  (forall o, In o (map outcome (combine (map has_shape shapes) args)) -> o = None) ->
  _func shapes (map has_shape shapes) func_name func args = Return (func args).
Proof.
  intros L A. unfold _func.
  rewrite len_eqb_length, L, Nat.eqb_refl. simpl.
  rewrite validate_loop_spec. simpl. now rewrite forallb_is_None_true.
Qed.

(** C3: when the number of call arguments differs from the number of
    declared shapes, the wrapper raises a domain error whose message
    names the function, the expected count and the received count; the
    message is a single line (for a function name without a line break);
    and the outcome is the same whatever the schemas are, so no schema is
    run on any argument. *)
Theorem arity_check_short_circuits :
  forall (T : Type) (shapes : list (list Z)) (schemas : list validator)
         (display_name : option string) (func : PyFunction T) (args : list PyObj),
    List.length args <> List.length shapes ->
    let func_name := pick_name display_name func in
    let msg :=
      "There was an error evaluating function " ++ func_name
      ++ "(...): expected " ++ str_of_int (len shapes)
      ++ " inputs, but received " ++ str_of_int (len args) ++ "." in
    _func shapes schemas func_name (call func) args = Raise (mkDomainError msg)
    /\ make_decorator shapes display_name func args = Raise (mkDomainError msg)
    /\ (has_char newline func_name = false -> split_lines msg = [msg]).
Proof.
  intros T shapes schemas display_name func args L func_name msg.
  assert (E : forall sch, _func shapes sch func_name (call func) args
                          = Raise (mkDomainError msg)).
  { intros sch. unfold _func. rewrite len_eqb_length.
    destruct (Nat.eqb_spec (List.length shapes) (List.length args)) as [E | _];
      [congruence | reflexivity]. }
  split; [apply E | split; [apply E |]].
  intros N. apply split_lines_single.
  now apply (arity_message_no_newline _ (len shapes) (len args)).
Qed.

(** C1 (amended): a wrapper declared with the single shape 1 accepts a
    plain number and accepts a scalar array; the scalar validator
    returns the bare number in both cases, but its result is dropped:
    the wrapped function is called on the original arguments, so a
    scalar array reaches it as that array. *)
Theorem scalar_wrapper_delegates_original_arguments :
  forall (T : Type) (display_name : option string) (func : PyFunction T)
         (x : Number) (a : MathArray),
    is_scalar_matharray a = true ->
    SpecifyDomain T [SpecInt 1] display_name = Some (make_decorator [[1%Z]] display_name)
    /\ number_validator (PNum x) = Return (PNum x)
    /\ number_validator (PArr a) = Return (PNum (item a))
    /\ make_decorator [[1%Z]] display_name func [PNum x] = Return (call func [PNum x])
    /\ make_decorator [[1%Z]] display_name func [PArr a] = Return (call func [PArr a]).
Proof.
  intros T display_name func x a S.
  assert (V : number_validator (PArr a) = Return (PNum (item a)))
    by (simpl; now rewrite S).
  repeat split; try reflexivity; try exact V.
  unfold make_decorator. apply _func_delegates; [reflexivity |].
  simpl. intros o [<- | []]. unfold outcome; simpl.
  change (has_shape [1%Z] (PArr a)) with (number_validator (PArr a)).
  now rewrite V.
Qed.

(** C2 (amended): with the declared number of arguments and at least
    one failed shape check, the wrapper raises one domain error whose
    message is the header naming the function followed by one line per
    argument, joined by a line break and a tab; the line of argument k
    starts with the ordinal of k and depends only on the k-th shape and
    the k-th argument (input is ok with the expected description, or
    input has an error with the message of the validator). For shapes
    [3, 3] called on a vector of length 3 and one of length 2, the line
    of the second argument is the third line of the message, after the
    header and the line of the first argument. *)
Theorem domain_report_lists_every_argument :
  (forall (T : Type) (shapes : list (list Z)) (display_name : option string)
          (func : PyFunction T) (args : list PyObj) (i : nat) (shp : list Z)
          (arg : PyObj) (e : Invalid),
      List.length args = List.length shapes ->
      nth_error shapes i = Some shp -> nth_error args i = Some arg ->
      has_shape shp arg = Raise e ->
      exists lines : list string,
        make_decorator shapes display_name func args
        = Raise (mkDomainError
                   (join line_separator
                      (("There was an error evaluating function "
                        ++ pick_name display_name func ++ "(...)") :: lines)))
        /\ List.length lines = List.length args
        /\ forall k shp_k arg_k,
             nth_error shapes k = Some shp_k -> nth_error args k = Some arg_k ->
             nth_error lines k
             = Some match has_shape shp_k arg_k with
                    | Return _ =>
                        low_ordinal (Z.of_nat k + 1) ++ " input is ok: received a "
                        ++ expected_description shp_k ++ " as expected"
                    | Raise err =>
                        low_ordinal (Z.of_nat k + 1) ++ " input has an error: "
                        ++ error_message err
                    end)
  /\ option_map split_lines
       (raised_message
          (make_decorator [[3%Z]; [3%Z]] None cross
             [PArr (vec [2; -1; 3]%R); PArr (vec [-1; 4]%R)]))
     = Some
         [ "There was an error evaluating function cross(...)";
           String tab "1st input is ok: received a vector of length 3 as expected";
           String tab "2nd input has an error: received a vector of length 2, expected a vector of length 3" ].
Proof.
  split; [| reflexivity].
  intros T shapes display_name func args i shp arg e L Hs Ha Hv.
  set (errors := map outcome (combine (map has_shape shapes) args)).
  exists (lines_from 0 (combine shapes errors)).
  assert (Le : List.length errors = List.length args) by now apply errors_length.
  split; [| split].
  - unfold make_decorator, _func.
    rewrite len_eqb_length, L, Nat.eqb_refl. simpl.
    rewrite validate_loop_spec. simpl. fold errors.
    assert (F : forallb is_None errors = false).
    { apply forallb_is_None_false with (i := i) (x := e).
      unfold errors. rewrite (errors_nth _ _ _ Hs Ha).
      unfold outcome; simpl. now rewrite Hv. }
    rewrite F, report_loop_spec. reflexivity.
  - rewrite lines_from_length, length_combine. lia.
  - intros k shp_k arg_k Hsk Hak.
    assert (Ek : nth_error errors k = Some (outcome (has_shape shp_k, arg_k)))
      by now apply errors_nth.
    rewrite (lines_from_nth _ 0 _ (combine_nth_error _ _ _ Hsk Ek)).
    unfold outcome, report_line, expected_description; simpl.
    destruct (has_shape shp_k arg_k); reflexivity.
Qed.

(** C10: a declared shape of 1, normalised to the tuple (1,), is checked
    by the scalar validator: plain numbers pass, scalar arrays pass (as
    the bare number); no declared shape is met by the arrays of shape
    (1,) and by nothing else; every other shape tuple is met exactly by
    the arrays of that shape, which are returned as they are. *)
Theorem shape_one_is_the_scalar_validator :
  (SCHEMA_SHAPE (SpecInt 1) = Some [1%Z]
   /\ SCHEMA_SHAPE (SpecList [1%Z]) = Some [1%Z]
   /\ has_shape [1%Z] = number_validator)
  /\ (forall x : Number, has_shape [1%Z] (PNum x) = Return (PNum x))
  /\ (forall a : MathArray, is_scalar_matharray a = true ->
        has_shape [1%Z] (PArr a) = Return (PNum (item a)))
  /\ (forall shp : list Z,
        ~ (forall obj, accepts (has_shape shp) obj <-> length1_array obj))
  /\ (forall (shp : list Z) (obj : PyObj), shp <> [1%Z] ->
        (accepts (has_shape shp) obj <-> exists a, obj = PArr a /\ shape a = shp)
        /\ (accepts (has_shape shp) obj -> has_shape shp obj = Return obj)).
Proof.
  split; [repeat split |]. split; [reflexivity |]. split; [| split].
  - intros a S. change (has_shape [1%Z]) with number_validator.
    simpl. now rewrite S.
  - intros shp A. unfold has_shape in A.
    destruct (tuple_eqb shp [1%Z]) eqn:E.
    + destruct (proj1 (A (PNum 0%R))) as [a [D _]]; [| discriminate].
      now exists (PNum 0%R).
    + destruct (proj2 (A (PArr (mkMathArray [1%Z] [0%R])))) as [r V].
      { now exists (mkMathArray [1%Z] [0%R]). }
      unfold make_shape_validator in V; cbn [shape] in V.
      destruct (tuple_eqb [1%Z] shp) eqn:E'; [| discriminate].
      apply tuple_eqb_eq in E'. subst shp. discriminate.
  - intros shp obj N. unfold has_shape, accepts.
    rewrite (tuple_eqb_neq N). unfold make_shape_validator.
    destruct obj as [x | a | c]; simpl.
    + split; [split |]; [intros [r V] | intros [a [D _]] | intros [r V]]; discriminate.
    + destruct (tuple_eqb (shape a) shp) eqn:E.
      * apply tuple_eqb_eq in E. split; [split |]; eauto.
      * split; [split |]; [intros [r V] | intros [a' [D S]] | intros [r V]];
          try discriminate.
        injection D as <-. apply tuple_eqb_eq in S. congruence.
    + split; [split |]; [intros [r V] | intros [a [D _]] | intros [r V]]; discriminate.
Qed.

End Facts.

(** *** The statements above at the arrays of numpy *)

Lemma arity_check_short_circuits_witness :
  make_decorator [[3%Z]; [3%Z]] None cross [PArr (vec [2; -1; 3]%R)]
  = Raise (mkDomainError
      "There was an error evaluating function cross(...): expected 2 inputs, but received 1.").
Proof.
  apply (arity_check_short_circuits (H := numpy_ops) [[3%Z]; [3%Z]] []
           None cross [PArr (vec [2; -1; 3]%R)]).
  simpl. discriminate.
Defined.

Lemma scalar_wrapper_delegates_original_arguments_witness :
  is_scalar_matharray scalar5 = true
  /\ make_decorator [[1%Z]] None echo [PArr scalar5] = Return [PArr scalar5].
Proof.
  split; [reflexivity |].
  apply (scalar_wrapper_delegates_original_arguments (H := numpy_ops)
           None echo 0%R scalar5).
  reflexivity.
Defined.

(** C1 as first stated fails: called on the scalar array [MathArray(5)],
    the wrapped function receives that array, not the number 5. *)
Lemma scalar_wrapper_does_not_unwrap :
  is_scalar_matharray scalar5 = true
  /\ item scalar5 = 5%R
  /\ make_decorator [[1%Z]] None echo [PArr scalar5] = Return [PArr scalar5]
  /\ make_decorator [[1%Z]] None echo [PArr scalar5]
     <> Return (call echo [PNum (item scalar5)]).
Proof.
  assert (E : make_decorator [[1%Z]] None echo [PArr scalar5] = Return [PArr scalar5])
    by reflexivity.
  repeat split; try reflexivity.
  rewrite E. simpl. discriminate.
Qed.

Lemma domain_report_lists_every_argument_witness :
  exists lines : list string,
    make_decorator [[3%Z]; [3%Z]] None cross
      [PArr (vec [2; -1; 3]%R); PArr (vec [-1; 4]%R)]
    = Raise (mkDomainError
               (join line_separator
                  ("There was an error evaluating function cross(...)" :: lines)))
    /\ List.length lines = 2%nat.
Proof.
  destruct (proj1 (domain_report_lists_every_argument (H := numpy_ops))
              (list PyObj) [[3%Z]; [3%Z]] None cross
              [PArr (vec [2; -1; 3]%R); PArr (vec [-1; 4]%R)]
              1%nat [3%Z] (PArr (vec [-1; 4]%R))
              (mkInvalid "received a vector of length 2, expected a vector of length 3")
              eq_refl eq_refl eq_refl eq_refl)
    as [lines [E [L _]]].
  exists lines. split; [exact E | exact L].
Defined.

(** C2 as first stated fails on its example: the second line of the
    message is the line of the first argument, and the text about the
    second argument does not occur in it. *)
Lemma report_second_line_is_about_first_input :
  option_map (fun m => nth_error (split_lines m) 1)
    (raised_message
       (make_decorator [[3%Z]; [3%Z]] None cross
          [PArr (vec [2; -1; 3]%R); PArr (vec [-1; 4]%R)]))
  = Some (Some (String tab "1st input is ok: received a vector of length 3 as expected"))
  /\ option_map
       (fun m =>
          occurs_in
            "2nd input has an error: received a vector of length 2, expected a vector of length 3"
            (nth 1 (split_lines m) ""))
       (raised_message
          (make_decorator [[3%Z]; [3%Z]] None cross
             [PArr (vec [2; -1; 3]%R); PArr (vec [-1; 4]%R)]))
     = Some false.
Proof. split; reflexivity. Qed.

Lemma shape_one_is_the_scalar_validator_witness :
  has_shape [1%Z] (PArr scalar5) = Return (PNum (item scalar5))
  /\ (accepts (has_shape [3%Z]) (PArr (vec [2; -1; 3]%R))
      <-> exists a, PArr (vec [2; -1; 3]%R) = PArr a /\ shape a = [3%Z]).
Proof.
  split.
  - apply (shape_one_is_the_scalar_validator (H := numpy_ops)). reflexivity.
  - apply (shape_one_is_the_scalar_validator (H := numpy_ops)). discriminate.
Defined.

End DomainProps.

(** * Properties of the sampling sets *)

Module SamplingProps.

Import Sampling SamplingSpec.
Open Scope string_scope.
Open Scope R_scope.

Section WithSource.

Context `{RandomSource}.

(** One draw of [RealInterval.gen_sample], spelled out. *)
Lemma real_interval_gen_sample_eq (ri : RealInterval.t) (s : rng) :
  RealInterval.gen_sample ri s
  = (RealInterval.start ri
     + (RealInterval.stop ri - RealInterval.start ri) * fst (random_sample s),
     snd (random_sample s)).
Proof.
  unfold RealInterval.gen_sample, bind, ret. now destruct (random_sample s).
Qed.

Lemma real_interval_init_ordered (a b : R) :
  RealInterval.start (RealInterval.__init__ a b) = Rmin a b
  /\ RealInterval.stop (RealInterval.__init__ a b) = Rmax a b.
Proof.
  unfold RealInterval.__init__, Rmin, Rmax.
  destruct (Rgt_dec a b) as [G | G], (Rle_dec a b) as [L | L]; simpl;
    split; lra.
Qed.

Lemma real_interval_between (ri : RealInterval.t) (s : rng) :
  RealInterval.start ri <= RealInterval.stop ri ->
  RealInterval.start ri <= fst (RealInterval.gen_sample ri s) <= RealInterval.stop ri.
Proof.
  intros O. rewrite real_interval_gen_sample_eq; simpl.
  pose proof (random_sample_range s) as [L U].
  split; nra.
Qed.

Lemma real_interval_init_between (a b : R) (s : rng) :
  a <= b -> a <= fst (RealInterval.gen_sample (RealInterval.__init__ a b) s) <= b.
Proof.
  intros O. destruct (real_interval_init_ordered a b) as [Es Et].
  rewrite Rmin_left in Es by exact O. rewrite Rmax_right in Et by exact O.
  pose proof (@real_interval_between (RealInterval.__init__ a b) s) as B.
  rewrite Es, Et in B. now apply B.
Qed.

(** C5: whatever the order of the bounds [a] and [b], the constructor
    leaves start <= stop (start is the smaller bound, stop the larger),
    and every sample lies between the smaller and the larger bound. *)
Theorem real_interval_sample_within_bounds :
  forall (a b : R) (s : rng),
    let ri := RealInterval.__init__ a b in
    RealInterval.start ri <= RealInterval.stop ri
    /\ RealInterval.start ri = Rmin a b
    /\ RealInterval.stop ri = Rmax a b
    /\ Rmin a b <= fst (RealInterval.gen_sample ri s) <= Rmax a b.
Proof.
  intros a b s ri.
  destruct (real_interval_init_ordered a b) as [Es Et]. fold ri in Es, Et.
  assert (O : RealInterval.start ri <= RealInterval.stop ri).
  { rewrite Es, Et. apply Rle_trans with a; [apply Rmin_l | apply Rmax_l]. }
  repeat split; auto; rewrite <- ?Es, <- ?Et; now apply real_interval_between.
Qed.

Lemma integer_range_init_ordered (a b : Z) :
  IntegerRange.start (IntegerRange.__init__ a b) = Z.min a b
  /\ IntegerRange.stop (IntegerRange.__init__ a b) = Z.max a b.
Proof.
  unfold IntegerRange.__init__.
  destruct (Z.gtb_spec a b); simpl; lia.
Qed.

(** C6: every sample of an [IntegerRange] built from [a] and [b] is an
    int between the smaller and the larger bound, both included (the
    draw never raises), and every int of that closed range is returned
    for some state of the random source. *)
Theorem integer_range_sample_closed_range :
  forall (a b : Z),
    let ir := IntegerRange.__init__ a b in
    (forall s : rng, exists v : Z,
        fst (IntegerRange.gen_sample ir s) = Return v
        /\ (Z.min a b <= v <= Z.max a b)%Z)
    /\ (forall v : Z, (Z.min a b <= v <= Z.max a b)%Z ->
          exists s : rng, fst (IntegerRange.gen_sample ir s) = Return v).
Proof.
  intros a b ir.
  destruct (integer_range_init_ordered a b) as [Es Et]. fold ir in Es, Et.
  unfold IntegerRange.gen_sample. rewrite Es, Et. split.
  - intros s.
    destruct (@randint_range _ (Z.min a b) (Z.max a b + 1) s) as [v [E B]]; [lia |].
    exists v. split; [exact E | lia].
  - intros v B. apply randint_onto. lia.
Qed.

Lemma Cmod_polar (m theta : R) :
  0 <= m -> Cmod (m * cos theta, m * sin theta) = m.
Proof.
  intros P. unfold Cmod; simpl.
  replace (m * cos theta * (m * cos theta) + m * sin theta * (m * sin theta))
    with (m * m * (Rsqr (sin theta) + Rsqr (cos theta))) by (unfold Rsqr; ring).
  rewrite sin2_cos2, Rmult_1_r. now apply sqrt_square.
Qed.

(** [m * exp(1j * a)] in Cartesian form. *)
Lemma polar_form (m a : R) :
  Cmul (C_of_float m) (Cexp (Cmul Cj (C_of_float a))) = (m * cos a, m * sin a).
Proof.
  unfold Cmul, Cexp, C_of_float, Cj; simpl.
  replace (0 * a - 1 * 0) with 0 by ring.
  replace (0 * 0 + 1 * a) with a by ring.
  rewrite exp_0. f_equal; ring.
Qed.

Lemma complex_sector_gen_sample_eq (cs : ComplexSector.t) (s : rng) :
  ComplexSector.gen_sample cs s
  = let ms := RealInterval.gen_sample (ComplexSector.modulus cs) s in
    let ar := RealInterval.gen_sample (ComplexSector.argument cs) (snd ms) in
    (Cmul (C_of_float (fst ms)) (Cexp (Cmul Cj (C_of_float (fst ar)))), snd ar).
Proof.
  unfold ComplexSector.gen_sample, bind, ret.
  destruct (RealInterval.gen_sample (ComplexSector.modulus cs) s) as [m s1]; simpl.
  now destruct (RealInterval.gen_sample (ComplexSector.argument cs) s1).
Qed.

(** C9: a sample of a [ComplexSector] is [m * exp(1j * a)], where [m]
    is a sample of the modulus interval and [a] a sample of the
    argument interval taken from the next draw of the random source;
    for modulus [0, 1] and argument [-pi, pi] the sample has magnitude
    in [0, 1] and an angle in [-pi, pi]. *)
Theorem complex_sector_sample_polar :
  (forall (cs : ComplexSector.t) (s : rng),
      let ms := RealInterval.gen_sample (ComplexSector.modulus cs) s in
      let ar := RealInterval.gen_sample (ComplexSector.argument cs) (snd ms) in
      ComplexSector.gen_sample cs s
      = (Cmul (C_of_float (fst ms)) (Cexp (Cmul Cj (C_of_float (fst ar)))), snd ar)
      /\ fst (ComplexSector.gen_sample cs s) = (fst ms * cos (fst ar), fst ms * sin (fst ar)))
  /\ (forall s : rng,
        let z := fst (ComplexSector.gen_sample (ComplexSector.__init__ (0, 1) (- PI, PI)) s) in
        0 <= Cmod z <= 1
        /\ exists theta : R, - PI <= theta <= PI /\ is_angle_of theta z).
Proof.
  split.
  - intros cs s ms ar. rewrite complex_sector_gen_sample_eq. fold ms. fold ar.
    split; [reflexivity |]. simpl. apply polar_form.
  - intros s z. unfold z. rewrite complex_sector_gen_sample_eq.
    cbn [fst snd ComplexSector.__init__ ComplexSector.modulus ComplexSector.argument].
    set (ms := RealInterval.gen_sample (RealInterval.__init__ 0 1) s).
    set (ar := RealInterval.gen_sample (RealInterval.__init__ (- PI) PI) (snd ms)).
    rewrite polar_form.
    pose proof PI_RGT_0 as Ppi.
    assert (Bm : 0 <= fst ms <= 1) by (apply real_interval_init_between; lra).
    assert (Ba : - PI <= fst ar <= PI) by (apply real_interval_init_between; lra).
    rewrite Cmod_polar by lra. split; [exact Bm |].
    exists (fst ar). split; [exact Ba |].
    unfold is_angle_of. now rewrite Cmod_polar by lra.
Qed.

(** C8: a call of the function returned by [RandomFunction.gen_sample]
    reads nothing from the random source and leaves it as it was: for
    one closure and one tuple of arguments the outcome is the same in
    every state of the source. *)
Theorem random_function_call_deterministic :
  forall (clo : RandomFunction.closure) (args : list R) (s1 s2 : rng),
    fst (RandomFunction.f clo args s1) = fst (RandomFunction.f clo args s2)
    /\ snd (RandomFunction.f clo args s1) = s1
    /\ snd (RandomFunction.f clo args s2) = s2.
Proof.
  intros clo args s1 s2. unfold RandomFunction.f.
  destruct (negb _); [repeat split |].
  destruct (_ >? 1)%Z; [repeat split |].
  destruct (map _ _); repeat split.
Qed.

(** *** The random function: arrays as tables of their entries *)

Lemma np_sum_app (xs ys : list R) : np_sum (xs ++ ys) = np_sum xs + np_sum ys.
Proof.
  unfold np_sum. induction xs as [| x xs IH]; simpl; [ring | rewrite IH; ring].
Qed.

Lemma np_sum_tabulated (n : nat) (g : nat -> R) :
  np_sum (map g (seq 0 n)) = sum_upto n g.
Proof.
  induction n as [| n IH]; [reflexivity |].
  rewrite seq_S, map_app, np_sum_app, IH. simpl. unfold np_sum; simpl. ring.
Qed.

Lemma list_tabulate {X : Type} (d : X) (l : list X) :
  l = map (fun i => nth i l d) (seq 0 (List.length l)).
Proof.
  induction l as [| x l IH]; [reflexivity |].
  simpl. f_equal. rewrite <- seq_shift, map_map. exact IH.
Qed.

Lemma repeat_tabulate {X : Type} (x : X) (n : nat) :
  repeat x n = map (fun _ => x) (seq 0 n).
Proof.
  induction n as [| n IH]; [reflexivity |].
  simpl. f_equal. now rewrite <- seq_shift, map_map.
Qed.

Lemma zip_with_tabulate {X Y Z I : Type} (g : X -> Y -> Z) (u : I -> X) (v : I -> Y)
    (l : list I) :
  zip_with g (map u l) (map v l) = map (fun i => g (u i) (v i)) l.
Proof. induction l as [| i l IH]; simpl; [reflexivity | now rewrite IH]. Qed.

Lemma tensor_tabulate (t : tensor) (d0 d1 d2 : nat) :
  has_dims t d0 d1 d2 -> t = tabulate3 d0 d1 d2 (nth3 t).
Proof.
  intros [L F]. unfold tabulate3, nth3. subst d0.
  rewrite (list_tabulate [] t) at 1.
  apply map_ext_in. intros i I. apply in_seq in I.
  assert (Fi : List.length (nth i t []) = d1
               /\ Forall (fun r => List.length r = d2) (nth i t [])).
  { apply (proj1 (Forall_forall _ t) F). apply nth_In. lia. }
  destruct Fi as [L1 F1].
  rewrite (list_tabulate [] (nth i t [])) at 1. rewrite L1.
  apply map_ext_in. intros j J. apply in_seq in J.
  assert (L2 : List.length (nth j (nth i t []) []) = d2).
  { apply (proj1 (Forall_forall _ _) F1). apply nth_In. lia. }
  rewrite (list_tabulate 0 (nth j (nth i t []) [])) at 1. now rewrite L2.
Qed.

Lemma tmap_tabulate (h : R -> R) (d0 d1 d2 : nat) (g : nat -> nat -> nat -> R) :
  tmap h (tabulate3 d0 d1 d2 g) = tabulate3 d0 d1 d2 (fun i j k => h (g i j k)).
Proof.
  unfold tmap, tabulate3. rewrite map_map. apply map_ext. intros i.
  rewrite map_map. apply map_ext. intros j. now rewrite map_map.
Qed.

Lemma tmap2_tabulate (h : R -> R -> R) (d0 d1 d2 : nat) (g1 g2 : nat -> nat -> nat -> R) :
  tmap2 h (tabulate3 d0 d1 d2 g1) (tabulate3 d0 d1 d2 g2)
  = tabulate3 d0 d1 d2 (fun i j k => h (g1 i j k) (g2 i j k)).
Proof.
  unfold tmap2, tabulate3. rewrite zip_with_tabulate. apply map_ext. intros i.
  rewrite zip_with_tabulate. apply map_ext. intros j.
  now rewrite zip_with_tabulate.
Qed.

Lemma np_tile_tabulate (xvec : list R) (d0 d1 : Z) :
  np_tile xvec d0 d1
  = tabulate3 (Z.to_nat d0) (Z.to_nat d1) (List.length xvec) (fun _ _ k => nth k xvec 0).
Proof.
  unfold np_tile, tabulate3. rewrite repeat_tabulate. apply map_ext. intros _.
  rewrite repeat_tabulate. apply map_ext. intros _. apply list_tabulate.
Qed.

Lemma tabulate3_dims (d0 d1 d2 : nat) (g : nat -> nat -> nat -> R) :
  has_dims (tabulate3 d0 d1 d2 g) d0 d1 d2.
Proof.
  unfold has_dims, tabulate3. split; [now rewrite length_map, length_seq |].
  apply Forall_forall. intros m M. apply in_map_iff in M as [i [<- _]].
  split; [now rewrite length_map, length_seq |].
  apply Forall_forall. intros r Rr. apply in_map_iff in Rr as [j [<- _]].
  now rewrite length_map, length_seq.
Qed.

Lemma tmap_dims (h : R -> R) (t : tensor) (d0 d1 d2 : nat) :
  has_dims t d0 d1 d2 -> has_dims (tmap h t) d0 d1 d2.
Proof.
  intros D. rewrite (tensor_tabulate D), tmap_tabulate. apply tabulate3_dims.
Qed.

Lemma replicate_draws_length {X : Type} (n : nat) (draw : sampler X) (s : rng) :
  List.length (fst (replicate_draws n draw s)) = n.
Proof.
  revert s; induction n as [| n IH]; intros s; [reflexivity |].
  simpl. unfold bind, ret. destruct (draw s) as [x s1].
  specialize (IH s1). destruct (replicate_draws n draw s1) as [xs s2].
  simpl in *. now rewrite IH.
Qed.

Lemma replicate_draws_Forall {X : Type} (P : X -> Prop) (n : nat) (draw : sampler X) :
  (forall s, P (fst (draw s))) ->
  forall s, Forall P (fst (replicate_draws n draw s)).
Proof.
  intros A. induction n as [| n IH]; intros s; [constructor |].
  simpl. unfold bind, ret. specialize (A s). destruct (draw s) as [x s1].
  specialize (IH s1). destruct (replicate_draws n draw s1) as [xs s2].
  simpl in *. now constructor.
Qed.

(** With dimensions that are not negative, [np.random.rand] returns an
    array of those dimensions. *)
Lemma np_random_rand_ok (d0 d1 d2 : Z) (s : rng) :
  (0 <= d0)%Z -> (0 <= d1)%Z -> (0 <= d2)%Z ->
  exists t s',
    np_random_rand d0 d1 d2 s = (Return t, s')
    /\ has_dims t (Z.to_nat d0) (Z.to_nat d1) (Z.to_nat d2).
Proof.
  intros P0 P1 P2. unfold np_random_rand.
  rewrite (proj2 (Z.ltb_ge d0 0) P0), (proj2 (Z.ltb_ge d1 0) P1),
    (proj2 (Z.ltb_ge d2 0) P2). simpl. unfold bind, ret.
  set (draws := replicate_draws (Z.to_nat d0)
                  (replicate_draws (Z.to_nat d1)
                     (replicate_draws (Z.to_nat d2) random_sample))).
  pose proof (replicate_draws_length (Z.to_nat d0)
                (replicate_draws (Z.to_nat d1)
                   (replicate_draws (Z.to_nat d2) random_sample)) s) as L.
  pose proof (@replicate_draws_Forall _
                (fun m => List.length m = Z.to_nat d1
                          /\ Forall (fun r => List.length r = Z.to_nat d2) m)
                (Z.to_nat d0)
                (replicate_draws (Z.to_nat d1)
                   (replicate_draws (Z.to_nat d2) random_sample))) as F.
  fold draws in L, F.
  assert (Fs : Forall (fun m => List.length m = Z.to_nat d1
                         /\ Forall (fun r => List.length r = Z.to_nat d2) m)
                 (fst (draws s))).
  { apply F. intros s0. split; [apply replicate_draws_length |].
    apply replicate_draws_Forall. intros s1. apply replicate_draws_length. }
  destruct (draws s) as [t s']. exists t, s'. split; [reflexivity |].
  split; assumption.
Qed.

Lemma sum_upto_ext (n : nat) (g h : nat -> R) :
  (forall i, g i = h i) -> sum_upto n g = sum_upto n h.
Proof.
  intros E. induction n as [| n IH]; simpl; [reflexivity | now rewrite IH, E].
Qed.

(** The body of the inner function on arrays given by their entries:
    the two sums of the code are the double sum over j and k. *)
Lemma fullsum_tabulate (gA gB gC : nat -> nat -> nat -> R) (xvec : list R) (d0 d1 : Z) :
  map np_sum
    (map (map np_sum)
       (tmap2 Rmult (tabulate3 (Z.to_nat d0) (Z.to_nat d1) (List.length xvec) gA)
          (tmap sin
             (tmap2 Rplus
                (tmap2 Rmult
                   (tabulate3 (Z.to_nat d0) (Z.to_nat d1) (List.length xvec) gB)
                   (np_tile xvec d0 d1))
                (tabulate3 (Z.to_nat d0) (Z.to_nat d1) (List.length xvec) gC)))))
  = map (fun i =>
           sum_upto (Z.to_nat d1) (fun j =>
             sum_upto (List.length xvec) (fun kk =>
               gA i j kk * sin (gB i j kk * nth kk xvec 0 + gC i j kk))))
      (seq 0 (Z.to_nat d0)).
Proof.
  rewrite np_tile_tabulate.
  rewrite !tmap2_tabulate, tmap_tabulate, tmap2_tabulate.
  unfold tabulate3. rewrite !map_map. apply map_ext. intros i.
  rewrite map_map, np_sum_tabulated. apply sum_upto_ext. intros j.
  apply np_sum_tabulated.
Qed.

Lemma init_valid (cfg cfg' : RandomFunction.config) :
  RandomFunction.__init__ cfg = Return cfg' ->
  cfg' = cfg
  /\ (0 < RandomFunction.input_dim cfg)%Z
  /\ (0 < RandomFunction.output_dim cfg)%Z
  /\ (0 < RandomFunction.num_terms cfg)%Z
  /\ 0 < RandomFunction.amplitude cfg.
Proof.
  unfold RandomFunction.__init__, RandomFunction.Positive_int,
    RandomFunction.Positive_Number.
  destruct (0 <? RandomFunction.input_dim cfg)%Z eqn:E1; [| discriminate].
  destruct (0 <? RandomFunction.output_dim cfg)%Z eqn:E2; [| discriminate].
  destruct (0 <? RandomFunction.num_terms cfg)%Z eqn:E3; [| discriminate].
  destruct (Rlt_dec 0 (RandomFunction.amplitude cfg)) as [P | N]; [| discriminate].
  simpl. intros E. injection E as <-.
  apply Z.ltb_lt in E1, E2, E3. auto.
Qed.

(** For dimensions that are not negative, [gen_sample] returns a
    closure over the configuration and three arrays of dimensions
    (output_dim, num_terms, input_dim). *)
Lemma gen_sample_returns (cfg : RandomFunction.config) (s : rng) :
  (0 <= RandomFunction.input_dim cfg)%Z ->
  (0 <= RandomFunction.output_dim cfg)%Z ->
  (0 <= RandomFunction.num_terms cfg)%Z ->
  let o := Z.to_nat (RandomFunction.output_dim cfg) in
  let n := Z.to_nat (RandomFunction.num_terms cfg) in
  let k := Z.to_nat (RandomFunction.input_dim cfg) in
  exists clo s',
    RandomFunction.gen_sample cfg s = (Return clo, s')
    /\ RandomFunction.self clo = cfg
    /\ has_dims (RandomFunction.A clo) o n k
    /\ has_dims (RandomFunction.B clo) o n k
    /\ has_dims (RandomFunction.C clo) o n k.
Proof.
  intros Pi Po Pn o n k. unfold RandomFunction.gen_sample, bind.
  destruct (np_random_rand_ok s Po Pn Pi) as [ra [s1 [Ea Da]]]. rewrite Ea.
  destruct (np_random_rand_ok s1 Po Pn Pi) as [rb [s2 [Eb Db]]]. rewrite Eb.
  destruct (np_random_rand_ok s2 Po Pn Pi) as [rc [s3 [Ec Dc]]]. rewrite Ec.
  unfold ret. eexists; eexists. split; [reflexivity |]. simpl.
  split; [reflexivity |].
  split; [exact (tmap_dims _ Da) |].
  split; [exact (tmap_dims _ Db) | exact (tmap_dims _ Dc)].
Qed.

(** A call with [input_dim] arguments on a closure whose arrays have
    the dimensions of the configuration. *)
Lemma f_computes_components (clo : RandomFunction.closure) (args : list R) (s : rng) :
  let cfg := RandomFunction.self clo in
  let o := Z.to_nat (RandomFunction.output_dim cfg) in
  let n := Z.to_nat (RandomFunction.num_terms cfg) in
  let k := Z.to_nat (RandomFunction.input_dim cfg) in
  (0 < RandomFunction.output_dim cfg)%Z ->
  has_dims (RandomFunction.A clo) o n k ->
  has_dims (RandomFunction.B clo) o n k ->
  has_dims (RandomFunction.C clo) o n k ->
  len args = RandomFunction.input_dim cfg ->
  RandomFunction.f clo args s
  = (Return (if (RandomFunction.output_dim cfg =? 1)%Z
             then RandomFunction.Scalar (component clo args 0)
             else RandomFunction.Vector (map (component clo args) (seq 0 o))),
     s).
Proof.
  intros cfg o n k Po DA DB DC L.
  assert (Lk : List.length args = Z.to_nat (RandomFunction.input_dim cfg))
    by (rewrite <- L; unfold len; lia).
  unfold k in DA, DB, DC. rewrite <- Lk in DA, DB, DC. clear k.
  assert (Fs : map (fun y => y + RandomFunction.center cfg)
                 (map (fun y => y * RandomFunction.amplitude cfg
                                / IZR (RandomFunction.num_terms cfg))
                    (map np_sum
                       (map (map np_sum)
                          (tmap2 Rmult (RandomFunction.A clo)
                             (tmap sin
                                (tmap2 Rplus
                                   (tmap2 Rmult (RandomFunction.B clo)
                                      (np_tile args (RandomFunction.output_dim cfg)
                                         (RandomFunction.num_terms cfg)))
                                   (RandomFunction.C clo)))))))
               = map (component clo args) (seq 0 o)).
  { set (gA := nth3 (RandomFunction.A clo)).
    set (gB := nth3 (RandomFunction.B clo)).
    set (gC := nth3 (RandomFunction.C clo)).
    rewrite (tensor_tabulate DA), (tensor_tabulate DB), (tensor_tabulate DC).
    fold gA gB gC. unfold o, n.
    rewrite (fullsum_tabulate gA gB gC args
               (RandomFunction.output_dim cfg) (RandomFunction.num_terms cfg)).
    rewrite !map_map. apply map_ext. intros i.
    unfold component. fold cfg. rewrite <- Lk. fold gA gB gC.
    unfold Rdiv. ring. }
  unfold RandomFunction.f. fold cfg. rewrite L, Z.eqb_refl. simpl negb. cbv iota.
  rewrite Fs.
  destruct (Z.eqb_spec (RandomFunction.output_dim cfg) 1) as [E1 | N1].
  - assert (O1 : o = 1%nat) by (unfold o; rewrite E1; reflexivity).
    rewrite E1, O1. reflexivity.
  - rewrite (proj2 (Z.gtb_gt _ _)) by lia. reflexivity.
Qed.

(** C4: for a validated configuration [gen_sample] returns a closure
    over three arrays A, B, C of shape (output_dim, num_terms,
    input_dim) drawn at that moment; called on [input_dim] arguments,
    the closure returns, for each i, center + (amplitude / num_terms)
    times the sum over j and k of A[i,j,k] * sin(B[i,j,k] * x_k +
    C[i,j,k]): as a bare number when output_dim is 1, as the vector of
    the components otherwise. *)
Theorem random_function_formula :
  forall (cfg : RandomFunction.config) (s : rng),
    RandomFunction.__init__ cfg = Return cfg ->
    let o := Z.to_nat (RandomFunction.output_dim cfg) in
    let n := Z.to_nat (RandomFunction.num_terms cfg) in
    let k := Z.to_nat (RandomFunction.input_dim cfg) in
    exists clo s',
      RandomFunction.gen_sample cfg s = (Return clo, s')
      /\ RandomFunction.self clo = cfg
      /\ has_dims (RandomFunction.A clo) o n k
      /\ has_dims (RandomFunction.B clo) o n k
      /\ has_dims (RandomFunction.C clo) o n k
      /\ forall (args : list R) (s1 : rng),
           len args = RandomFunction.input_dim cfg ->
           RandomFunction.f clo args s1
           = (Return (if (RandomFunction.output_dim cfg =? 1)%Z
                      then RandomFunction.Scalar (component clo args 0)
                      else RandomFunction.Vector (map (component clo args) (seq 0 o))),
              s1).
Proof.
  intros cfg s V o n k.
  destruct (init_valid _ V) as [_ [Pi [Po [Pn _]]]].
  destruct (@gen_sample_returns cfg s) as [clo [s' [E [Ec [DA [DB DC]]]]]]; try lia.
  exists clo, s'. do 5 (split; [assumption |]).
  intros args s1 L. pose proof (@f_computes_components clo args s1) as F.
  rewrite Ec in F. now apply F.
Qed.

(** C7: for a validated configuration [gen_sample] returns a closure
    and raises nothing; every call of a closure of that configuration
    with a number of arguments other than [input_dim] raises a
    [ConfigError] that gives the expected and the received count. *)
Theorem random_function_arity_checked_at_call :
  forall (cfg : RandomFunction.config),
    RandomFunction.__init__ cfg = Return cfg ->
    (forall s : rng, exists clo s',
        RandomFunction.gen_sample cfg s = (Return clo, s')
        /\ RandomFunction.self clo = cfg)
    /\ (forall (clo : RandomFunction.closure) (args : list R) (s1 : rng),
          RandomFunction.self clo = cfg ->
          len args <> RandomFunction.input_dim cfg ->
          RandomFunction.f clo args s1
          = (Raise (ConfigError
                      ("Expected " ++ str_of_int (RandomFunction.input_dim cfg)
                       ++ " arguments, but received " ++ str_of_int (len args))),
             s1)).
Proof.
  intros cfg V. destruct (init_valid _ V) as [_ [Pi [Po [Pn _]]]]. split.
  - intros s.
    destruct (@gen_sample_returns cfg s) as [clo [s' [E [Ec _]]]]; try lia.
    now exists clo, s'.
  - intros clo args s1 Ec N. unfold RandomFunction.f. rewrite Ec.
    now rewrite (proj2 (Z.eqb_neq _ _) N).
Qed.

End WithSource.

Lemma integer_range_sample_closed_range_witness :
  exists s : Z,
    fst (IntegerRange.gen_sample (H := counter_source) (IntegerRange.__init__ 4 (-2)) s)
    = Return 4%Z.
Proof.
  apply (integer_range_sample_closed_range (H := counter_source) 4 (-2)).
  simpl. lia.
Defined.

Lemma default_config_valid :
  RandomFunction.__init__ default_config = Return default_config.
Proof.
  unfold RandomFunction.__init__, RandomFunction.Positive_Number; simpl.
  destruct (Rlt_dec 0 10) as [_ | N]; [reflexivity | lra].
Qed.

(** The closure drawn from the counter source in state 0: nine draws,
    three for each array of shape (1, 3, 1). *)
Example default_sample_from_counter :
  RandomFunction.gen_sample (H := counter_source) default_config 0%Z
  = (Return
       (RandomFunction.mkClosure default_config
          [[[IZR 0 / 1000 / 2 + 0.5]; [IZR 1 / 1000 / 2 + 0.5]; [IZR 2 / 1000 / 2 + 0.5]]]
          [[[2 * PI * (IZR 3 / 1000 - 0.5)]; [2 * PI * (IZR 4 / 1000 - 0.5)];
            [2 * PI * (IZR 5 / 1000 - 0.5)]]]
          [[[2 * PI * (IZR 6 / 1000)]; [2 * PI * (IZR 7 / 1000)];
            [2 * PI * (IZR 8 / 1000)]]]),
     9%Z).
Proof. reflexivity. Qed.

Lemma random_function_formula_witness :
  exists clo s',
    RandomFunction.gen_sample (H := counter_source) default_config 0%Z = (Return clo, s')
    /\ forall (x : R) (s1 : Z),
         RandomFunction.f (H := counter_source) clo [x] s1
         = (Return (RandomFunction.Scalar (component clo [x] 0)), s1).
Proof.
  destruct (@random_function_formula counter_source default_config 0%Z
              default_config_valid)
    as [clo [s' [E [_ [_ [_ [_ F]]]]]]].
  exists clo, s'. split; [exact E |].
  intros x s1. apply (F [x] s1). reflexivity.
Defined.

Lemma random_function_arity_checked_at_call_witness :
  RandomFunction.f (H := counter_source)
    (RandomFunction.mkClosure default_config [] [] []) [1; 2] 0%Z
  = (Raise (ConfigError "Expected 1 arguments, but received 2"), 0%Z).
Proof.
  apply (proj2 (@random_function_arity_checked_at_call counter_source
                  default_config default_config_valid)).
  - reflexivity.
  - simpl. discriminate.
Defined.

End SamplingProps.

(** * Further behaviour of the domain-validation wrapper *)

Module WrapperBehaviour.

Import SpecifyDomain DomainSpec DomainProps.
Open Scope string_scope.

Lemma to_int_not_nil (n : Z) :
  Z.to_int n <> Decimal.Pos Decimal.Nil /\ Z.to_int n <> Decimal.Neg Decimal.Nil.
Proof.
  destruct n as [| p | p]; simpl; split; intros E; try discriminate;
    injection E as E; exact (Unsigned.to_uint_nonnil _ E).
Qed.

Lemma str_of_int_inj (n m : Z) : str_of_int n = str_of_int m -> n = m.
Proof.
  unfold str_of_int. intros E.
  apply (f_equal NilZero.int_of_string) in E.
  destruct (to_int_not_nil n) as [Np Nn], (to_int_not_nil m) as [Mp Mn].
  rewrite !NilZero.isi in E by assumption.
  injection E as E. now apply to_int_inj.
Qed.

Lemma string_length_app (s t : string) :
  String.length (s ++ t) = (String.length s + String.length t)%nat.
Proof. induction s as [| c s IH]; simpl; [reflexivity | now rewrite IH]. Qed.

Lemma string_app_cancel_r (s1 s2 t : string) : s1 ++ t = s2 ++ t -> s1 = s2.
Proof.
  intros E.
  assert (L : String.length s1 = String.length s2).
  { apply (f_equal String.length) in E. rewrite !string_length_app in E. lia. }
  revert s2 E L; induction s1 as [| c s1 IH]; intros [| d s2] E L;
    simpl in *; try discriminate; [reflexivity |].
  injection E as -> E. f_equal. apply IH; [exact E | lia].
Qed.

(** A numeral followed by "th" is none of the three special ordinals. *)
Lemma th_is_not_special (s : string) :
  s ++ "th" <> "1st" /\ s ++ "th" <> "2nd" /\ s ++ "th" <> "3rd".
Proof.
  split; [| split]; intros E;
    destruct s as [| c1 [| c2 [| c3 [| c4 r]]]]; simpl in E; discriminate.
Qed.

Lemma low_ordinal_cases (n : Z) :
  (n = 1%Z /\ low_ordinal n = "1st")
  \/ (n = 2%Z /\ low_ordinal n = "2nd")
  \/ (n = 3%Z /\ low_ordinal n = "3rd")
  \/ (n <> 1%Z /\ n <> 2%Z /\ n <> 3%Z /\ low_ordinal n = str_of_int n ++ "th").
Proof.
  unfold low_ordinal, dict_get.
  destruct (Z.eqb_spec 1 n) as [<- | N1]; [now left |].
  destruct (Z.eqb_spec 2 n) as [<- | N2]; [now right; left |].
  destruct (Z.eqb_spec 3 n) as [<- | N3]; [now right; right; left |].
  right; right; right. repeat split; congruence.
Qed.

(** The wrapper is the check followed by the call. *)
Lemma _func_factor `{ArrayOps} (T : Type) (shapes : list (list Z)) (func_name : string)
    (func : list PyObj -> T) (args : list PyObj) :
  _func shapes (map has_shape shapes) func_name func args
  = match domain_check shapes func_name args with
    | Some e => Raise e
    | None => Return (func args)
    end.
Proof.
  unfold domain_check, _func.
  destruct (negb _); [reflexivity |].
  destruct (forallb _ _); reflexivity.
Qed.

Lemma outcomes_all_None `{ArrayOps} (shapes : list (list Z)) :
  forall args : list PyObj,
    List.length args = List.length shapes ->
    (forallb is_None (map outcome (combine (map has_shape shapes) args)) = true
     <-> Forall2 (fun shp arg => accepts (has_shape shp) arg) shapes args).
Proof.
  induction shapes as [| shp shapes IH]; intros [| arg args] L;
    simpl in L; try discriminate.
  - simpl. split; [constructor | reflexivity].
  - simpl. unfold outcome at 1; simpl. injection L as L.
    rewrite andb_true_iff, (IH args L). split.
    + intros [V F]. constructor; [| exact F].
      destruct (has_shape shp arg) as [v | e] eqn:E; [now exists v | discriminate].
    + intros F. inversion F as [| ? ? ? ? [v V] F']; subst.
      rewrite V. now split.
Qed.

Lemma domain_check_None `{ArrayOps} (shapes : list (list Z)) (func_name : string)
    (args : list PyObj) :
  domain_check shapes func_name args = None
  <-> Forall2 (fun shp arg => accepts (has_shape shp) arg) shapes args.
Proof.
  unfold domain_check, _func. rewrite len_eqb_length.
  destruct (Nat.eqb_spec (List.length shapes) (List.length args)) as [L | N]; simpl.
  - rewrite validate_loop_spec; simpl.
    rewrite <- (outcomes_all_None shapes args (eq_sym L)).
    destruct (forallb _ _); split; congruence.
  - split; [discriminate |]. intros F. apply Forall2_length in F. contradiction.
Qed.

Section Behaviour.

Context `{ArrayOps}.

(** X1: the wrapper returns exactly when there are as many arguments as
    shapes and every argument passes the validator of its shape, and
    what it returns is then the result of the wrapped function on the
    arguments as they were passed. *)
Theorem wrapper_returns_iff_all_valid :
  forall (T : Type) (shapes : list (list Z)) (display_name : option string)
         (func : PyFunction T) (args : list PyObj) (v : T),
    make_decorator shapes display_name func args = Return v
    <-> (Forall2 (fun shp arg => accepts (has_shape shp) arg) shapes args
         /\ v = call func args).
Proof.
  intros T shapes display_name func args v.
  unfold make_decorator. rewrite _func_factor.
  rewrite <- (domain_check_None shapes (pick_name display_name func) args).
  destruct (domain_check shapes (pick_name display_name func) args) as [e |].
  - split; [discriminate | intros [D _]; discriminate].
  - split.
    + intros E. injection E as <-. now split.
    + intros [_ ->]. reflexivity.
Qed.


(** X3: whenever the validator of a declared shape refuses an object,
    its message is "received a D, expected a E" with D the description
    of the object and E the very text that the report prints for an
    accepted argument of that shape; for the shape (1,) that text is
    "scalar", not the description of a vector of length 1. *)
Theorem refusal_message_matches_report :
  forall (shp : list Z) (obj : PyObj) (e : Invalid) (index : Z),
    has_shape shp obj = Raise e ->
    error_message e
    = "received a " ++ get_description obj ++ ", expected a " ++ expected_description shp
    /\ report_line index shp None
       = low_ordinal (index + 1) ++ " input is ok: received a "
         ++ expected_description shp ++ " as expected"
    /\ expected_description [1%Z] = "scalar".
Proof.
  intros shp obj e index V. split; [| split; reflexivity].
  unfold has_shape, expected_description in *.
  destruct (tuple_eqb shp [1%Z]).
  - destruct obj as [x | a | c]; simpl in V; try discriminate.
    + destruct (is_scalar_matharray a); [discriminate |].
      injection V as <-. reflexivity.
    + injection V as <-. reflexivity.
  - unfold make_shape_validator in V.
    destruct obj as [x | a | c]; simpl in V.
    + injection V as <-. reflexivity.
    + destruct (tuple_eqb (shape a) shp); [discriminate |].
      injection V as <-. reflexivity.
    + injection V as <-. reflexivity.
Qed.

(** X4: what the scalar validator returns is always a plain number, and
    validating it again returns it unchanged. *)
Theorem number_validator_idempotent :
  forall (obj v : PyObj),
    number_validator obj = Return v ->
    (exists x : Number, v = PNum x) /\ number_validator v = Return v.
Proof.
  intros obj v V. destruct obj as [x | a | c]; simpl in V.
  - injection V as <-. split; [now exists x | reflexivity].
  - destruct (is_scalar_matharray a); [| discriminate].
    injection V as <-. split; [now exists (item a) | reflexivity].
  - discriminate.
Qed.

(** X6: a shape that the schema accepts is normalised to a tuple of
    positive ints; the int k and the list [k] declare the same tuple
    (k,); and a normalised tuple, given back as a list, is accepted
    unchanged. *)
Theorem shape_schema_normal_form :
  forall (s : shape_spec) (shp : list Z),
    SCHEMA_SHAPE s = Some shp ->
    Forall (fun k => (0 < k)%Z) shp
    /\ SCHEMA_SHAPE (SpecList shp) = Some shp
    /\ (forall k : Z, s = SpecInt k ->
          shp = [k] /\ SCHEMA_SHAPE (SpecList [k]) = SCHEMA_SHAPE (SpecInt k)).
Proof.
  intros s shp E.
  assert (P : forallb Positive shp = true).
  { destruct s as [k | ks]; simpl in E.
    - destruct (Positive k) eqn:Pk; [| discriminate].
      injection E as <-. simpl. now rewrite Pk.
    - destruct (forallb Positive ks) eqn:Pk; [| discriminate].
      now injection E as <-. }
  split; [| split].
  - apply Forall_forall. intros k I.
    apply (proj1 (forallb_forall _ _) P) in I. now apply Z.ltb_lt.
  - simpl. now rewrite P.
  - intros k ->. simpl in *.
    destruct (Positive k); [| discriminate].
    injection E as <-. split; reflexivity.
Qed.

(** X7: the function that the decorator returns keeps the [__name__] of
    the function it wraps and is marked validated; decorating it once
    more with the same shapes and display name changes nothing: every
    call returns or raises exactly what the once-decorated function
    does. *)
Theorem decorating_twice_is_decorating_once :
  forall (T : Type) (shapes : list (list Z)) (display_name : option string)
         (func : PyFunction T) (args : list PyObj),
    __name__ (wrapper (decorator shapes display_name func)) = __name__ func
    /\ validated (decorator shapes display_name func) = true
    /\ propagate
         (make_decorator shapes display_name
            (wrapper (decorator shapes display_name func)) args)
       = make_decorator shapes display_name func args.
Proof.
  intros T shapes display_name func args.
  split; [reflexivity | split; [reflexivity |]].
  assert (N : pick_name display_name (wrapper (decorator shapes display_name func))
              = pick_name display_name func)
    by (destruct display_name as [[| c d] |]; reflexivity).
  unfold make_decorator at 1. rewrite _func_factor, N. simpl call.
  unfold make_decorator. rewrite _func_factor.
  destruct (domain_check shapes (pick_name display_name func) args); reflexivity.
Qed.

End Behaviour.

(** X5: two different positions never get the same ordinal label. *)
Theorem low_ordinal_injective :
  forall n m : Z, n <> m -> low_ordinal n <> low_ordinal m.
Proof.
  intros n m D E.
  destruct (low_ordinal_cases n) as [[-> En] | [[-> En] | [[-> En] | [N1 [N2 [N3 En]]]]]];
    destruct (low_ordinal_cases m) as [[-> Em] | [[-> Em] | [[-> Em] | [M1 [M2 [M3 Em]]]]]];
    try contradiction; rewrite En, Em in E; try discriminate.
  all: try (destruct (th_is_not_special (str_of_int m)) as [A [B C]];
            symmetry in E; contradiction).
  all: try (destruct (th_is_not_special (str_of_int n)) as [A [B C]];
            contradiction).
  apply string_app_cancel_r, str_of_int_inj in E. contradiction.
Qed.


Lemma refusal_message_matches_report_witness :
  error_message
    (mkInvalid "received a vector of length 2, expected a vector of length 3")
  = "received a " ++ get_description (PArr (vec [-1; 4]%R))
    ++ ", expected a " ++ expected_description [3%Z].
Proof.
  apply (@refusal_message_matches_report numpy_ops [3%Z] (PArr (vec [-1; 4]%R))
           (mkInvalid "received a vector of length 2, expected a vector of length 3")
           0%Z).
  reflexivity.
Defined.

Lemma number_validator_idempotent_witness :
  number_validator (PNum (item scalar5)) = Return (PNum (item scalar5)).
Proof.
  apply (@number_validator_idempotent numpy_ops (PArr scalar5) (PNum (item scalar5))).
  reflexivity.
Defined.

Lemma shape_schema_normal_form_witness :
  SCHEMA_SHAPE (SpecList [2%Z; 3%Z]) = Some [2%Z; 3%Z]
  /\ Forall (fun k => (0 < k)%Z) [2%Z; 3%Z].
Proof.
  split; [reflexivity |].
  apply (@shape_schema_normal_form (SpecList [2%Z; 3%Z]) [2%Z; 3%Z]).
  reflexivity.
Defined.

Lemma low_ordinal_injective_witness : low_ordinal 1 <> low_ordinal 21.
Proof. apply low_ordinal_injective. discriminate. Defined.

End WrapperBehaviour.

(** * Further behaviour of the sampling sets *)

Module SamplerBehaviour.

Import Sampling SamplingSpec SamplingProps.
Open Scope string_scope.
Open Scope R_scope.

Section WithSource.

Context `{RandomSource}.

Lemma real_interval_init_sample_bounds (a b : R) (s : rng) :
  Rmin a b <= fst (RealInterval.gen_sample (RealInterval.__init__ a b) s) <= Rmax a b.
Proof.
  destruct (real_interval_init_ordered a b) as [Es Et].
  pose proof (@real_interval_between _ (RealInterval.__init__ a b) s) as B.
  rewrite Es, Et in B. apply B.
  apply Rle_trans with a; [apply Rmin_l | apply Rmax_l].
Qed.





Lemma rectangle_form (x y : R) :
  Cadd (C_of_float x) (Cmul (C_of_float y) Cj) = (x, y).
Proof. unfold Cadd, Cmul, C_of_float, Cj; simpl. f_equal; ring. Qed.

(** X10: a sample of a [ComplexRectangle] has as real part a sample of
    the interval of real parts and as imaginary part a sample of the
    interval of imaginary parts taken from the next draw; whatever the
    order of the configured bounds, the real part lies between the two
    bounds of [re] and the imaginary part between the two of [im]. *)
Theorem complex_rectangle_sample_in_rectangle :
  forall (r0 r1 i0 i1 : R) (s : rng),
    let cr := ComplexRectangle.__init__ (r0, r1) (i0, i1) in
    let xs := RealInterval.gen_sample (ComplexRectangle.re cr) s in
    let ys := RealInterval.gen_sample (ComplexRectangle.im cr) (snd xs) in
    ComplexRectangle.gen_sample cr s = ((fst xs, fst ys), snd ys)
    /\ Rmin r0 r1 <= fst (fst (ComplexRectangle.gen_sample cr s)) <= Rmax r0 r1
    /\ Rmin i0 i1 <= snd (fst (ComplexRectangle.gen_sample cr s)) <= Rmax i0 i1.
Proof.
  intros r0 r1 i0 i1 s cr xs ys.
  assert (E : ComplexRectangle.gen_sample cr s = ((fst xs, fst ys), snd ys)).
  { unfold ComplexRectangle.gen_sample, bind, ret. unfold ys, xs.
    destruct (RealInterval.gen_sample (ComplexRectangle.re cr) s) as [x s1];
      cbn [fst snd].
    destruct (RealInterval.gen_sample (ComplexRectangle.im cr) s1) as [y s2];
      cbn [fst snd].
    now rewrite rectangle_form. }
  rewrite E. simpl. split; [reflexivity |].
  split; [apply real_interval_init_sample_bounds | apply real_interval_init_sample_bounds].
Qed.



(** *** The random function: coefficients, range of values, draws *)

Lemma Forall_nth_default {X : Type} (P : X -> Prop) (l : list X) (d : X) (i : nat) :
  Forall P l -> P d -> P (nth i l d).
Proof.
  intros F D. revert i; induction F as [| x l Px F IH]; intros [| i]; simpl; auto.
Qed.

Lemma nth3_entries (P : R -> Prop) (t : tensor) (i j k : nat) :
  all_entries P t -> P 0 -> P (nth3 t i j k).
Proof.
  intros F D. unfold nth3.
  apply Forall_nth_default; [| exact D].
  apply Forall_nth_default; [| constructor].
  apply Forall_nth_default; [exact F | constructor].
Qed.

Lemma all_entries_tmap (P Q : R -> Prop) (g : R -> R) (t : tensor) :
  (forall u, P u -> Q (g u)) -> all_entries P t -> all_entries Q (tmap g t).
Proof.
  intros I F. unfold all_entries, tmap in *.
  apply Forall_map. eapply Forall_impl; [| exact F]. intros m Fm.
  apply Forall_map. eapply Forall_impl; [| exact Fm]. intros r Fr.
  apply Forall_map. eapply Forall_impl; [| exact Fr]. exact I.
Qed.

(** What [np.random.rand] returns holds draws of [0, 1) only. *)
Lemma np_random_rand_entries (d0 d1 d2 : Z) (s s' : rng) (t : tensor) :
  np_random_rand d0 d1 d2 s = (Return t, s') ->
  all_entries (fun u => 0 <= u < 1) t.
Proof.
  unfold np_random_rand.
  destruct ((d0 <? 0)%Z || (d1 <? 0)%Z || (d2 <? 0)%Z); [discriminate |].
  unfold bind, ret.
  pose proof (@replicate_draws_Forall _ _ (Forall (Forall (fun u => 0 <= u < 1)))
                (Z.to_nat d0)
                (replicate_draws (Z.to_nat d1)
                   (replicate_draws (Z.to_nat d2) random_sample))) as F.
  specialize (F (fun s0 =>
                   replicate_draws_Forall (Forall (fun u => 0 <= u < 1)) (Z.to_nat d1)
                     (replicate_draws (Z.to_nat d2) random_sample)
                     (fun s1 =>
                        replicate_draws_Forall (fun u => 0 <= u < 1) (Z.to_nat d2)
                          random_sample random_sample_range s1)
                     s0)
                s).
  destruct (replicate_draws (Z.to_nat d0) _ s) as [t0 s0].
  intros E. injection E as <- _. exact F.
Qed.

(** The closure of a sample: the configuration and the three arrays,
    each drawn by [np.random.rand] and rescaled. *)
Lemma gen_sample_inv (cfg : RandomFunction.config) (s s' : rng)
    (clo : RandomFunction.closure)
    (G : RandomFunction.gen_sample cfg s = (Return clo, s')) :
  exists ra rb rc s1 s2,
    np_random_rand (RandomFunction.output_dim cfg) (RandomFunction.num_terms cfg)
      (RandomFunction.input_dim cfg) s = (Return ra, s1)
    /\ np_random_rand (RandomFunction.output_dim cfg) (RandomFunction.num_terms cfg)
         (RandomFunction.input_dim cfg) s1 = (Return rb, s2)
    /\ np_random_rand (RandomFunction.output_dim cfg) (RandomFunction.num_terms cfg)
         (RandomFunction.input_dim cfg) s2 = (Return rc, s')
    /\ clo = RandomFunction.mkClosure cfg
               (tmap (fun a => a / 2 + 0.5) ra)
               (tmap (fun b => 2 * PI * (b - 0.5)) rb)
               (tmap (fun c => 2 * PI * c) rc).
Proof.
  revert G. unfold RandomFunction.gen_sample, bind, ret.
  destruct (np_random_rand _ _ _ s) as [[ra | e] s1] eqn:Ea; [| discriminate].
  destruct (np_random_rand _ _ _ s1) as [[rb | e] s2] eqn:Eb; [| discriminate].
  destruct (np_random_rand _ _ _ s2) as [[rc | e] s3] eqn:Ec; [| discriminate].
  intros E. injection E as <- <-.
  exists ra, rb, rc, s1, s2. auto.
Qed.

(** The amplitudes of a sampled closure. *)
Lemma gen_sample_amplitudes (cfg : RandomFunction.config) (s s' : rng)
    (clo : RandomFunction.closure)
    (G : RandomFunction.gen_sample cfg s = (Return clo, s')) :
  all_entries (fun a => 0.5 <= a < 1) (RandomFunction.A clo).
Proof.
  destruct (@gen_sample_inv _ _ _ _ G) as [ra [rb [rc [s1 [s2 [Ea [_ [_ ->]]]]]]]].
  apply np_random_rand_entries in Ea. simpl.
  apply (all_entries_tmap (P := fun u => 0 <= u < 1)); [| exact Ea]. intros u U. lra.
Qed.


Lemma sum_upto_bound (n : nat) (g : nat -> R) (c : R) :
  (forall i, Rabs (g i) <= c) -> Rabs (sum_upto n g) <= INR n * c.
Proof.
  intros B. induction n as [| n IH].
  - simpl. rewrite Rabs_R0. lra.
  - cbn [sum_upto]. rewrite S_INR.
    pose proof (Rabs_triang (sum_upto n g) (g n)). specialize (B n). lra.
Qed.

Lemma term_bound (a t : R) : 0 <= a <= 1 -> Rabs (a * sin t) <= 1.
Proof.
  intros A. rewrite Rabs_mult.
  assert (Ba : Rabs a <= 1) by (rewrite Rabs_pos_eq; lra).
  assert (Bs : Rabs (sin t) <= 1) by (apply Rabs_le; apply SIN_bound).
  pose proof (Rabs_pos a). pose proof (Rabs_pos (sin t)). nra.
Qed.

(** Every component stays within amplitude * input_dim of the center
    when the amplitudes of the closure are between 0 and 1. *)
Lemma component_bound (clo : RandomFunction.closure) (x : list R) (i : nat) :
  let cfg := RandomFunction.self clo in
  (0 < RandomFunction.num_terms cfg)%Z ->
  (0 <= RandomFunction.input_dim cfg)%Z ->
  0 < RandomFunction.amplitude cfg ->
  all_entries (fun a => 0 <= a <= 1) (RandomFunction.A clo) ->
  Rabs (component clo x i - RandomFunction.center cfg)
  <= RandomFunction.amplitude cfg * IZR (RandomFunction.input_dim cfg).
Proof.
  intros cfg Pn Pk Pa FA. unfold component. fold cfg.
  set (S := sum_upto _ _).
  replace (RandomFunction.center cfg
           + RandomFunction.amplitude cfg / IZR (RandomFunction.num_terms cfg) * S
           - RandomFunction.center cfg)
    with (RandomFunction.amplitude cfg / IZR (RandomFunction.num_terms cfg) * S) by ring.
  assert (Nn : 0 < IZR (RandomFunction.num_terms cfg)) by now apply IZR_lt.
  assert (En : INR (Z.to_nat (RandomFunction.num_terms cfg))
               = IZR (RandomFunction.num_terms cfg))
    by (rewrite INR_IZR_INZ, Z2Nat.id; [reflexivity | lia]).
  assert (Ek : INR (Z.to_nat (RandomFunction.input_dim cfg))
               = IZR (RandomFunction.input_dim cfg))
    by (rewrite INR_IZR_INZ, Z2Nat.id; [reflexivity | lia]).
  assert (BS : Rabs S <= IZR (RandomFunction.num_terms cfg)
                         * (IZR (RandomFunction.input_dim cfg) * 1)).
  { rewrite <- En, <- Ek. unfold S. apply sum_upto_bound. intros j.
    apply sum_upto_bound. intros k. apply term_bound.
    apply (@nth3_entries (fun a => 0 <= a <= 1)); [exact FA | lra]. }
  rewrite Rabs_mult, Rabs_pos_eq
    by (apply Rlt_le, Rdiv_lt_0_compat; assumption).
  apply Rle_trans with
    (RandomFunction.amplitude cfg / IZR (RandomFunction.num_terms cfg)
     * (IZR (RandomFunction.num_terms cfg) * (IZR (RandomFunction.input_dim cfg) * 1))).
  - apply Rmult_le_compat_l; [| exact BS].
    apply Rlt_le, Rdiv_lt_0_compat; assumption.
  - right. field. lra.
Qed.

(** X13: called on [input_dim] arguments, a function sampled for a
    validated configuration returns numbers that all stay within
    amplitude * input_dim of the center. *)
Theorem random_function_values_bounded :
  forall (cfg : RandomFunction.config) (s s' : rng) (clo : RandomFunction.closure)
         (args : list R) (s1 : rng),
    RandomFunction.__init__ cfg = Return cfg ->
    RandomFunction.gen_sample cfg s = (Return clo, s') ->
    len args = RandomFunction.input_dim cfg ->
    exists out : RandomFunction.output,
      RandomFunction.f clo args s1 = (Return out, s1)
      /\ Forall (fun y =>
                   Rabs (y - RandomFunction.center cfg)
                   <= RandomFunction.amplitude cfg * IZR (RandomFunction.input_dim cfg))
           (values_of out).
Proof.
  intros cfg s s' clo args s1 V G L.
  destruct (init_valid _ V) as [_ [Pi [Po [Pn Pa]]]].
  destruct (@gen_sample_returns _ cfg s) as [clo' [s'' [G' [Ec [DA [DB DC]]]]]];
    try lia.
  rewrite G in G'. injection G' as <- <-.
  pose proof (@gen_sample_amplitudes _ _ _ _ G) as FA.
  assert (FA' : all_entries (fun a => 0 <= a <= 1) (RandomFunction.A clo)).
  { unfold all_entries in *.
    eapply Forall_impl; [| exact FA]. intros m Fm.
    eapply Forall_impl; [| exact Fm]. intros r Fr.
    eapply Forall_impl; [| exact Fr]. intros a Ba. simpl in Ba. lra. }
  pose proof (@f_computes_components _ clo args s1) as F.
  pose proof (fun i => @component_bound clo args i) as B.
  rewrite Ec in F, B. cbv zeta in F, B.
  eexists. split; [apply F; assumption |].
  destruct (RandomFunction.output_dim cfg =? 1)%Z; simpl.
  - constructor; [| constructor]. apply B; try assumption; lia.
  - apply Forall_forall. intros y I. apply in_map_iff in I as [i [<- _]].
    apply B; try assumption; lia.
Qed.

Lemma advance_first (n : nat) (s : rng) :
  advance (S n) s = advance n (snd (random_sample s)).
Proof. unfold advance. apply Nat.iter_succ_r. Qed.

Lemma advance_add (a b : nat) (s : rng) :
  advance (a + b) s = advance b (advance a s).
Proof.
  revert s; induction a as [| a IH]; intros s; [reflexivity |].
  change (S a + b)%nat with (S (a + b)). now rewrite !advance_first, IH.
Qed.

Lemma replicate_draws_advance {X : Type} (m : nat) (draw : sampler X) :
  (forall s, snd (draw s) = advance m s) ->
  forall n s, snd (replicate_draws n draw s) = advance (n * m) s.
Proof.
  intros D. induction n as [| n IH]; intros s; [reflexivity |].
  simpl. unfold bind, ret. specialize (D s). destruct (draw s) as [x s1].
  specialize (IH s1). destruct (replicate_draws n draw s1) as [xs s2].
  simpl in *. now rewrite advance_add, <- D, <- IH.
Qed.

Lemma np_random_rand_advance (d0 d1 d2 : Z) (s : rng) :
  (0 <= d0)%Z -> (0 <= d1)%Z -> (0 <= d2)%Z ->
  snd (np_random_rand d0 d1 d2 s)
  = advance (Z.to_nat d0 * (Z.to_nat d1 * (Z.to_nat d2 * 1))) s.
Proof.
  intros P0 P1 P2. unfold np_random_rand.
  rewrite (proj2 (Z.ltb_ge d0 0) P0), (proj2 (Z.ltb_ge d1 0) P1),
    (proj2 (Z.ltb_ge d2 0) P2).
  change (false || false || false) with false. cbv iota. unfold bind, ret.
  assert (E2 : forall s0,
             snd (replicate_draws (Z.to_nat d2) random_sample s0)
             = advance (Z.to_nat d2 * 1) s0).
  { intros s0. apply replicate_draws_advance. reflexivity. }
  assert (E1 : forall s0,
             snd (replicate_draws (Z.to_nat d1)
                    (replicate_draws (Z.to_nat d2) random_sample) s0)
             = advance (Z.to_nat d1 * (Z.to_nat d2 * 1)) s0).
  { intros s0. now apply replicate_draws_advance. }
  assert (E : snd (replicate_draws (Z.to_nat d0)
                     (replicate_draws (Z.to_nat d1)
                        (replicate_draws (Z.to_nat d2) random_sample)) s)
              = advance (Z.to_nat d0 * (Z.to_nat d1 * (Z.to_nat d2 * 1))) s).
  { now apply replicate_draws_advance. }
  destruct (replicate_draws (Z.to_nat d0) _ s) as [t s']. exact E.
Qed.

(** X14: the samplers take a fixed number of float draws from the random
    source: one for a [RealInterval], two for a [ComplexRectangle] and
    for a [ComplexSector], and three times output_dim * num_terms *
    input_dim for a function of a validated [RandomFunction]. *)
Theorem samplers_take_fixed_number_of_draws :
  forall (cfg : RandomFunction.config) (s : rng),
    RandomFunction.__init__ cfg = Return cfg ->
    snd (RandomFunction.gen_sample cfg s)
    = advance (3 * (Z.to_nat (RandomFunction.output_dim cfg)
                    * Z.to_nat (RandomFunction.num_terms cfg)
                    * Z.to_nat (RandomFunction.input_dim cfg))) s
    /\ (forall ri : RealInterval.t,
          snd (RealInterval.gen_sample ri s) = advance 1 s)
    /\ (forall cr : ComplexRectangle.t,
          snd (ComplexRectangle.gen_sample cr s) = advance 2 s)
    /\ (forall cs : ComplexSector.t,
          snd (ComplexSector.gen_sample cs s) = advance 2 s).
Proof.
  intros cfg s V. destruct (init_valid _ V) as [_ [Pi [Po [Pn _]]]].
  assert (R1 : forall (ri : RealInterval.t) (s0 : rng),
             snd (RealInterval.gen_sample ri s0) = advance 1 s0)
    by (intros ri s0; now rewrite real_interval_gen_sample_eq).
  split; [| split; [intros ri; apply R1 | split]].
  - set (N := (Z.to_nat (RandomFunction.output_dim cfg)
               * Z.to_nat (RandomFunction.num_terms cfg)
               * Z.to_nat (RandomFunction.input_dim cfg))%nat).
    assert (D : forall s0,
               snd (np_random_rand (RandomFunction.output_dim cfg)
                      (RandomFunction.num_terms cfg) (RandomFunction.input_dim cfg) s0)
               = advance N s0).
    { intros s0. rewrite np_random_rand_advance by lia. f_equal. unfold N. lia. }
    destruct (@gen_sample_returns _ cfg s) as [clo [s' [G _]]]; try lia.
    destruct (@gen_sample_inv _ _ _ _ G) as [ra [rb [rc [s1 [s2 [Ea [Eb [Ec _]]]]]]]].
    rewrite G. simpl.
    pose proof (D s) as Da. rewrite Ea in Da. simpl in Da.
    pose proof (D s1) as Db. rewrite Eb in Db. simpl in Db.
    pose proof (D s2) as Dc. rewrite Ec in Dc. simpl in Dc.
    replace (3 * N)%nat with (N + (N + N))%nat by lia.
    now rewrite !advance_add, <- Da, <- Db, <- Dc.
  - intros cr. unfold ComplexRectangle.gen_sample, bind, ret.
    pose proof (R1 (ComplexRectangle.re cr) s) as E1.
    destruct (RealInterval.gen_sample (ComplexRectangle.re cr) s) as [x s1].
    pose proof (R1 (ComplexRectangle.im cr) s1) as E2.
    destruct (RealInterval.gen_sample (ComplexRectangle.im cr) s1) as [y s2].
    simpl in *. rewrite E2, E1. reflexivity.
  - intros cs. rewrite complex_sector_gen_sample_eq. simpl.
    now rewrite !R1.
Qed.

End WithSource.



Lemma random_function_values_bounded_witness :
  exists out : RandomFunction.output,
    RandomFunction.f (H := counter_source) default_closure [1] 0%Z = (Return out, 0%Z)
    /\ Forall (fun y => Rabs (y - 0) <= 10 * IZR 1) (values_of out).
Proof.
  apply (@random_function_values_bounded counter_source default_config 0%Z 9%Z
           default_closure [1] 0%Z default_config_valid); reflexivity.
Defined.

Lemma samplers_take_fixed_number_of_draws_witness :
  snd (RandomFunction.gen_sample (H := counter_source) default_config 0%Z) = 9%Z.
Proof.
  apply (@samplers_take_fixed_number_of_draws counter_source default_config 0%Z
           default_config_valid).
Defined.

End SamplerBehaviour.
